(** * GasProvider: fee projection, bundle pricing and relay requests

    A shallow embedding of [src/gas.ts].  The class [GasProvider] offers

    - [getMaxBaseFeeInFutureBlock] and [getBaseFeeInNextBlock], two static
      functions over ethers' [BigNumber];
    - [calculateBundlePricing], a [reduce] over the transaction details of a
      bundle followed by two guarded divisions;
    - [request] and [prepareRelayRequest], which build the headers and the
      JSON-RPC envelope of a relay call.

    Conventions of the embedding.

    - A [BigNumber] is an arbitrary-precision signed integer: [Z].  Its [div]
      truncates toward zero ([Z.quot]) and throws on a zero divisor; every
      method converts its argument with [BigNumber.from], which throws on a
      JavaScript [number] outside the safe-integer range.
    - A JavaScript [number] that holds a count (gas, loop index, request id)
      is the integer it denotes, a [Z]; additions on such numbers are exact
      inside the safe-integer range, which is where all the values of this
      development live.
    - A thrown exception is the [Err] case of [result]; [async] functions are
      modelled by their outcome.
    - Decimal strings of the blocks API ([gas_price], [coinbase_transfer]) are
      the integers they spell. *)

From Stdlib Require Import ZArith Lia Sorted.
From stdpp Require Import base gmap strings list pretty.
From Equations Require Import Equations.

Local Open Scope Z_scope.

(** ** Exceptions *)

Inductive error : Type :=
| DivisionByZero            (* BigNumber: "division-by-zero" *)
| NumericOverflow           (* BigNumber.from(number): "overflow" *)
| SignerFailure (msg : string).   (* rejected promise of the auth signer *)

Inductive result (A : Type) : Type :=
| Ok (a : A)
| Err (e : error).

Arguments Ok {A} a.
Arguments Err {A} e.

#[global] Instance result_ret : MRet result := fun A a => Ok a.

#[global] Instance result_bind : MBind result := fun A B f m =>
  match m with
  | Ok a => f a
  | Err e => Err e
  end.

Definition is_ok {A} (r : result A) : bool :=
  match r with Ok _ => true | Err _ => false end.

(** ** ethers' BigNumber *)

Module BigNumber.

(** The part of ethers' [BigNumber] (version 5) that [gas.ts] calls.  The
    library is a dependency of the repository; its behaviour is taken from
    its documentation: values of arbitrary precision, [div] truncating toward
    zero and throwing "division-by-zero", [from] throwing "overflow" on an
    unsafe number. *)

(** What a method accepts (BigNumberish): a BigNumber, or a JavaScript
    number. *)
Inductive ish : Type :=
| Big (v : Z)
| Num (n : Z).

(** [MAX_SAFE = 0x1fffffffffffff]. *)
Definition MAX_SAFE : Z := 9007199254740991.

(** [BigNumber.from]: a number at or beyond [MAX_SAFE] in absolute value is
    rejected. *)
Definition from (value : ish) : result Z :=
  match value with
  | Big v => Ok v
  | Num n =>
      if (n >=? MAX_SAFE) || (n <=? - MAX_SAFE)
      then Err NumericOverflow
      else Ok n
  end.

Definition add (a : Z) (other : ish) : result Z :=
  o ← from other; Ok (a + o).

Definition sub (a : Z) (other : ish) : result Z :=
  o ← from other; Ok (a - o).

Definition mul (a : Z) (other : ish) : result Z :=
  o ← from other; Ok (a * o).

Definition div (a : Z) (other : ish) : result Z :=
  o ← from other;
  if o =? 0 then Err DivisionByZero else Ok (Z.quot a o).

Definition eq (a b : Z) : bool := a =? b.
Definition gt (a b : Z) : bool := a >? b.

End BigNumber.

Import BigNumber.

(** ** Constants of the module *)

Definition BASE_FEE_MAX_CHANGE_DENOMINATOR : Z := 8.

(** ** Data of the blocks API *)

Inductive BundleType : Type := rogue | flashbots.

Module Tx.
(** [BlocksApiResponseTransactionDetails].  [coinbase_transfer] is looked
    up with ['coinbase_transfer' in transactionDetail], so its absence is
    part of the model. *)
Record t : Type := mk {
  transaction_hash : string;
  tx_index : Z;
  bundle_type : BundleType;
  bundle_index : Z;
  block_number : Z;
  eoa_address : string;
  to_address : string;
  gas_used : Z;
  gas_price : Z;
  coinbase_transfer : option Z;
  total_miner_reward : Z
}.
End Tx.

Module Acc.
(** The accumulator of the [reduce] in [calculateBundlePricing]. *)
Record t : Type := mk {
  gasUsed : Z;
  gasFeesPaidBySearcher : Z;
  priorityFeesReceivedByMiner : Z;
  coinbase_transfer : Z
}.
End Acc.

Module Pricing.
(** The object returned by [calculateBundlePricing]: the accumulator spread,
    then [txCount] and the two effective prices. *)
Record t : Type := mk {
  gasUsed : Z;
  gasFeesPaidBySearcher : Z;
  priorityFeesReceivedByMiner : Z;
  coinbase_transfer : Z;
  txCount : Z;
  effectiveGasPriceToSearcher : Z;
  effectivePriorityFeeToMiner : Z
}.
End Pricing.

(** [Array.prototype.reduce] with an initial value and a callback that may
    throw. *)
Fixpoint reduce {A B : Type} (f : B -> A -> result B) (l : list A) (acc : B)
  : result B :=
  match l with
  | [] => Ok acc
  | x :: l' => acc' ← f acc x; reduce f l' acc'
  end.

(** ** Relay requests *)

Inductive RelayMethod : Type :=
| eth_callBundle
| eth_sendBundle
| eth_sendPrivateTransaction
| eth_cancelPrivateTransaction
| flashbots_getUserStats
| flashbots_getBundleStats.

(** One element of [RpcParams]. *)
Inductive RpcParam : Type :=
| PStrings (l : list string)
| PString (s : string)
| PNumber (n : Z)
| PRecord (r : gmap string string).

Module Envelope.
Record t : Type := mk {
  method : RelayMethod;
  params : list RpcParam;
  id : Z;
  jsonrpc : string
}.
End Envelope.

Module ConnectionInfo.
(** ethers' [ConnectionInfo]; [headers] is optional. *)
Record t : Type := mk {
  url : string;
  headers : option (gmap string string);
  user : option string;
  password : option string;
  timeout : option Z
}.

Definition set_headers (c : t) (h : gmap string string) : t :=
  mk (url c) (Some h) (user c) (password c) (timeout c).
End ConnectionInfo.

(** The signing capability: both calls are promises that may reject. *)
Record Signer : Type := mkSigner {
  getAddress : result string;
  signMessage : string -> result string
}.

(** The object-literal spread [{ ...source }] into a literal that already
    holds [target]: each own property of [source] is written in turn. *)
Definition spread (target : gmap string string)
    (source : option (gmap string string)) : gmap string string :=
  match source with
  | Some h => map_fold (fun k v o => <[k := v]> o) target h
  | None => target
  end.

Definition SIGNATURE_HEADER : string := "X-Flashbots-Signature".

(** ** The class *)

Module GasProvider.

(** The fields the methods below read or write; [_nextId] is inherited from
    [JsonRpcProvider]. *)
Record t : Type := mk {
  _nextId : Z;
  authSigner : Signer;
  connectionInfo : ConnectionInfo.t
}.

(** The [for] loop of [getMaxBaseFeeInFutureBlock], from index [i]. *)
Equations? maxBaseFee_loop (maxBaseFee i blocksInFuture : Z) : result Z
  by wf (Z.to_nat (blocksInFuture - i)) lt :=
  maxBaseFee_loop maxBaseFee i blocksInFuture with Z_lt_dec i blocksInFuture := {
    | left _ =>
        m ← mul maxBaseFee (Num 1125);
        d ← div m (Num 1000);
        next ← add d (Num 1);
        maxBaseFee_loop next (i + 1) blocksInFuture
    | right _ => Ok maxBaseFee }.
Proof. lia. Qed.

Definition getMaxBaseFeeInFutureBlock (baseFee blocksInFuture : Z)
  : result Z :=
  maxBaseFee ← from (Big baseFee);
  maxBaseFee_loop maxBaseFee 0 blocksInFuture.

Definition getBaseFeeInNextBlock
    (currentBaseFeePerGas currentGasUsed currentGasLimit : Z) : result Z :=
  currentGasTarget ← div currentGasLimit (Num 2);
  if eq currentGasUsed currentGasTarget then
    Ok currentBaseFeePerGas
  else if gt currentGasUsed currentGasTarget then
    gasUsedDelta ← sub currentGasUsed (Big currentGasTarget);
    m ← mul currentBaseFeePerGas (Big gasUsedDelta);
    q ← div m (Big currentGasTarget);
    baseFeePerGasDelta ← div q (Num BASE_FEE_MAX_CHANGE_DENOMINATOR);
    add currentBaseFeePerGas (Big baseFeePerGasDelta)
  else
    gasUsedDelta ← sub currentGasTarget (Big currentGasUsed);
    m ← mul currentBaseFeePerGas (Big gasUsedDelta);
    q ← div m (Big currentGasTarget);
    baseFeePerGasDelta ← div q (Num BASE_FEE_MAX_CHANGE_DENOMINATOR);
    sub currentBaseFeePerGas (Big baseFeePerGasDelta).

(** The callback of the [reduce]. *)
Definition pricing_step (baseFee : Z) (acc : Acc.t) (transactionDetail : Tx.t)
  : result Acc.t :=
  let gasUsed := Tx.gas_used transactionDetail in
  gasPricePaidBySearcher ← from (Big (Tx.gas_price transactionDetail));
  priorityFeeReceivedByMiner ← sub gasPricePaidBySearcher (Big baseFee);
  coinbase_transfer ←
    match Tx.coinbase_transfer transactionDetail with
    | Some c => Ok c
    | None =>
        match Tx.coinbase_transfer transactionDetail with
        | Some c => Ok c
        | None => from (Num 0)
        end
    end;
  fees ← mul gasPricePaidBySearcher (Num gasUsed);
  gasFees ← add (Acc.gasFeesPaidBySearcher acc) (Big fees);
  tips ← mul priorityFeeReceivedByMiner (Num gasUsed);
  priorityFees ← add (Acc.priorityFeesReceivedByMiner acc) (Big tips);
  coinbase ← add (Acc.coinbase_transfer acc) (Big coinbase_transfer);
  Ok (Acc.mk (Acc.gasUsed acc + gasUsed) gasFees priorityFees coinbase).

Definition pricing_init : result Acc.t :=
  z1 ← from (Num 0); z2 ← from (Num 0); z3 ← from (Num 0);
  Ok (Acc.mk 0 z1 z2 z3).

Definition calculateBundlePricing (bundleTransactions : list Tx.t)
    (baseFee : Z) : result Pricing.t :=
  init ← pricing_init;
  bundleGasPricing ← reduce (pricing_step baseFee) bundleTransactions init;
  effectiveGasPriceToSearcher ←
    (if Acc.gasUsed bundleGasPricing >? 0 then
       s ← add (Acc.coinbase_transfer bundleGasPricing)
               (Big (Acc.gasFeesPaidBySearcher bundleGasPricing));
       div s (Num (Acc.gasUsed bundleGasPricing))
     else from (Num 0));
  effectivePriorityFeeToMiner ←
    (if Acc.gasUsed bundleGasPricing >? 0 then
       s ← add (Acc.coinbase_transfer bundleGasPricing)
               (Big (Acc.priorityFeesReceivedByMiner bundleGasPricing));
       div s (Num (Acc.gasUsed bundleGasPricing))
     else from (Num 0));
  Ok (Pricing.mk
        (Acc.gasUsed bundleGasPricing)
        (Acc.gasFeesPaidBySearcher bundleGasPricing)
        (Acc.priorityFeesReceivedByMiner bundleGasPricing)
        (Acc.coinbase_transfer bundleGasPricing)
        (Z.of_nat (length bundleTransactions))
        effectiveGasPriceToSearcher
        effectivePriorityFeeToMiner).

Section BlocksApi.

(** The conversion of a JavaScript number to text that a template literal
    performs.  It belongs to the language runtime: it prints a safe integer
    in plain decimal and switches to rounded digits and exponent form
    beyond, so it is a parameter here and the properties below state what
    they need of it. *)
Variable number_toString : Z -> string.

(** [fetchBlocksApi], up to the URL it hands to [fetchJson]. *)
Definition fetchBlocksApi (blockNumber : Z) : string :=
  "https://blocks.flashbots.net/v1/blocks?block_number="
  +:+ number_toString blockNumber.

End BlocksApi.

Section Relay.

(** [id] of ethers' utils, the keccak-256 digest of a text, and
    [fetchJson] are outside the repository: the digest is a parameter,
    and [request] is modelled up to the arguments it hands to
    [fetchJson]. *)
Variable utils_id : string -> string.

Definition request (this : t) (request : string)
  : result (ConnectionInfo.t * string) :=
  let connectionInfo := connectionInfo this in
  address ← getAddress (authSigner this);
  signature ← signMessage (authSigner this) (utils_id request);
  let headers :=
    spread {[ SIGNATURE_HEADER := address +:+ ":" +:+ signature ]}
           (ConnectionInfo.headers (GasProvider.connectionInfo this)) in
  Ok (ConnectionInfo.set_headers connectionInfo headers, request).

(** [this._nextId++] yields the old value and stores the successor. *)
Definition prepareRelayRequest (this : t) (method : RelayMethod)
    (params : list RpcParam) : Envelope.t * t :=
  (Envelope.mk method params (_nextId this) "2.0",
   mk (_nextId this + 1) (authSigner this) (connectionInfo this)).

(** What a caller does with a client: prepare an envelope, or send a
    serialized body. *)
Inductive call : Type :=
| Prepare (method : RelayMethod) (params : list RpcParam)
| Send (body : string).

(** A sequence of calls on one client, collecting the envelopes. *)
Fixpoint run (calls : list call) (this : t) : list Envelope.t * t :=
  match calls with
  | [] => ([], this)
  | Prepare method params :: rest =>
      let '(e, this') := prepareRelayRequest this method params in
      let '(es, this'') := run rest this' in
      (e :: es, this'')
  | Send body :: rest =>
      let _ := request this body in
      run rest this
  end.

End Relay.

End GasProvider.

Import GasProvider.

(** ** A client for examples *)

Definition example_signer : Signer :=
  mkSigner (Ok "0xA11CE") (fun digest => Ok ("signed:" +:+ digest)).

(** A client whose connection already carries a signature header. *)
Definition example_client : GasProvider.t :=
  GasProvider.mk 42 example_signer
    (ConnectionInfo.mk "https://api.sushirelay.com/v1"
       (Some {[ "X-Flashbots-Signature" := "caller"; "Accept" := "json" ]})
       None None None).

(** A client whose connection has no headers. *)
Definition plain_client : GasProvider.t :=
  GasProvider.mk 42 example_signer
    (ConnectionInfo.mk "https://api.sushirelay.com/v1" None None None None).

(** The header sent under a key, if the request went out. *)
Definition sent_header (r : result (ConnectionInfo.t * string)) (k : string)
  : option string :=
  match r with
  | Ok (sent, _) => h ← ConnectionInfo.headers sent; h !! k
  | Err _ => None
  end.

(** ** Reference quantities of the specification *)

(** One turn of the loop body, as the code computes it. *)
Definition loop_step (c : Z) : Z := Z.quot (c * 1125) 1000 + 1.

(** One step of the projection as the specification words it:
    [floor(current * 1125 / 1000) + 1]. *)
Definition projection_step (c : Z) : Z := c * 1125 / 1000 + 1.

Definition projection (b : Z) (n : nat) : Z := Nat.iter n projection_step b.

(** The adjustment, with both divisions truncating toward zero. *)
Definition fee_delta (f used_delta target : Z) : Z :=
  Z.quot (Z.quot (f * used_delta) target) 8.

(** The reference totals of a bundle, as sums over its records. *)
Definition sum_over (w : Tx.t -> Z) (l : list Tx.t) : Z :=
  foldr (fun r s => w r + s) 0 l.

Definition total_gas : list Tx.t -> Z := sum_over Tx.gas_used.

Definition total_fees : list Tx.t -> Z :=
  sum_over (fun r => Tx.gas_price r * Tx.gas_used r).

Definition total_priority_fees (baseFee : Z) : list Tx.t -> Z :=
  sum_over (fun r => (Tx.gas_price r - baseFee) * Tx.gas_used r).

Definition total_coinbase : list Tx.t -> Z :=
  sum_over (fun r => default 0 (Tx.coinbase_transfer r)).

(** The gas of a bundle in absolute value: below [MAX_SAFE], every number
    the aggregation handles is a safe integer. *)
Definition gas_magnitude : list Tx.t -> Z :=
  sum_over (fun r => Z.abs (Tx.gas_used r)).

Definition effective_price (coinbase fees gas : Z) : Z :=
  if gas >? 0 then Z.quot (coinbase + fees) gas else 0.

Definition reference_pricing (txs : list Tx.t) (baseFee : Z) : Pricing.t :=
  Pricing.mk
    (total_gas txs)
    (total_fees txs)
    (total_priority_fees baseFee txs)
    (total_coinbase txs)
    (Z.of_nat (length txs))
    (effective_price (total_coinbase txs) (total_fees txs) (total_gas txs))
    (effective_price (total_coinbase txs) (total_priority_fees baseFee txs)
       (total_gas txs)).

(** A record with the three fields the aggregation reads. *)
Definition record (gasUsed gasPricePaid : Z) (coinbaseTransfer : option Z)
  : Tx.t :=
  Tx.mk "" 0 flashbots 0 0 "" "" gasUsed gasPricePaid coinbaseTransfer 0.

(** A computation that either returns or throws the overflow fault. *)
Definition overflow_only {A : Type} (r : result A) : Prop :=
  match r with
  | Ok _ => True
  | Err e => e = NumericOverflow
  end.

Definition is_prepare (c : call) : bool :=
  match c with Prepare _ _ => true | Send _ => false end.

(** The number of envelopes a sequence of calls prepares. *)
Definition prepared (calls : list call) : nat :=
  length (filter (fun c => is_prepare c = true) calls).

(** The headers of a connection, none when the field is undefined. *)
Definition headers_of (c : ConnectionInfo.t) : gmap string string :=
  default ∅ (ConnectionInfo.headers c).

(** The fee [getBaseFeeInNextBlock] computes when its target is not zero. *)
Definition next_fee (f g target : Z) : Z :=
  if g =? target then f
  else if g >? target then f + fee_delta f (g - target) target
  else f - fee_delta f (target - g) target.

(** A record whose gas is a safe integer for [BigNumber.from]. *)
Definition safe_gas (r : Tx.t) : Prop :=
  - MAX_SAFE < Tx.gas_used r < MAX_SAFE.

(** The record with an absent [coinbase_transfer] written out as 0. *)
Definition with_coinbase (r : Tx.t) : Tx.t :=
  Tx.mk (Tx.transaction_hash r) (Tx.tx_index r) (Tx.bundle_type r)
    (Tx.bundle_index r) (Tx.block_number r) (Tx.eoa_address r)
    (Tx.to_address r) (Tx.gas_used r) (Tx.gas_price r)
    (Some (default 0 (Tx.coinbase_transfer r))) (Tx.total_miner_reward r).

(** The method and parameters of the envelopes a sequence of calls asks
    for. *)
Definition prepared_calls (calls : list call)
  : list (RelayMethod * list RpcParam) :=
  omap (fun c => match c with
                 | Prepare method params => Some (method, params)
                 | Send _ => None
                 end) calls.

(** * Properties *)

(** ** BigNumber: the conversions and operations that cannot throw *)

Lemma from_num_safe (n : Z) :
  - MAX_SAFE < n < MAX_SAFE -> from (Num n) = Ok n.
Proof.
  intros Hn. unfold from.
  destruct (Z.geb_spec n MAX_SAFE); [lia|].
  destruct (Z.leb_spec n (- MAX_SAFE)); [lia|]. reflexivity.
Qed.

Lemma add_big (a o : Z) : add a (Big o) = Ok (a + o).
Proof. reflexivity. Qed.

Lemma sub_big (a o : Z) : sub a (Big o) = Ok (a - o).
Proof. reflexivity. Qed.

Lemma mul_big (a o : Z) : mul a (Big o) = Ok (a * o).
Proof. reflexivity. Qed.

Lemma div_big_nonzero (a o : Z) : o <> 0 -> div a (Big o) = Ok (Z.quot a o).
Proof.
  intros Ho. unfold div. cbn.
  destruct (Z.eqb_spec o 0); [contradiction | reflexivity].
Qed.

Lemma div_big_zero (a : Z) : div a (Big 0) = Err DivisionByZero.
Proof. reflexivity. Qed.

Lemma div_num_safe (a n : Z) :
  0 < n < MAX_SAFE -> div a (Num n) = Ok (Z.quot a n).
Proof.
  intros Hn. unfold div. rewrite from_num_safe by (unfold MAX_SAFE in *; lia).
  cbn. destruct (Z.eqb_spec n 0); [lia | reflexivity].
Qed.

(** ** The fee projection *)

Lemma loop_body (c : Z) :
  (m ← mul c (Num 1125); d ← div m (Num 1000); add d (Num 1))
  = Ok (loop_step c).
Proof. reflexivity. Qed.

Lemma maxBaseFee_loop_exit (b i n : Z) :
  n <= i -> maxBaseFee_loop b i n = Ok b.
Proof.
  intros Hle. rewrite maxBaseFee_loop_equation_1.
  destruct (Z_lt_dec i n); [lia | reflexivity].
Qed.

Lemma maxBaseFee_loop_turn (b i n : Z) :
  i < n -> maxBaseFee_loop b i n = maxBaseFee_loop (loop_step b) (i + 1) n.
Proof.
  intros Hlt. rewrite maxBaseFee_loop_equation_1.
  destruct (Z_lt_dec i n); [reflexivity | lia].
Qed.

Lemma maxBaseFee_loop_iter (k : nat) :
  forall b i n, Z.to_nat (n - i) = k ->
    maxBaseFee_loop b i n = Ok (Nat.iter k loop_step b).
Proof.
  induction k as [|k IH]; intros b i n Hk.
  - apply maxBaseFee_loop_exit. lia.
  - rewrite maxBaseFee_loop_turn by lia.
    rewrite (IH (loop_step b) (i + 1) n) by lia.
    now rewrite Nat.iter_succ_r.
Qed.

Lemma getMaxBaseFeeInFutureBlock_iter (b n : Z) :
  getMaxBaseFeeInFutureBlock b n = Ok (Nat.iter (Z.to_nat n) loop_step b).
Proof.
  unfold getMaxBaseFeeInFutureBlock. cbn.
  apply maxBaseFee_loop_iter. f_equal. lia.
Qed.

Lemma projection_step_grows (c : Z) : 0 <= c -> c < projection_step c.
Proof.
  intros Hc. unfold projection_step.
  assert (c <= c * 1125 / 1000) by (apply Z.div_le_lower_bound; lia).
  lia.
Qed.

Lemma projection_step_mono (a b : Z) :
  a <= b -> projection_step a <= projection_step b.
Proof.
  intros Hab. unfold projection_step.
  assert (a * 1125 / 1000 <= b * 1125 / 1000) by (apply Z.div_le_mono; lia).
  lia.
Qed.

Lemma loop_step_projection_step (c : Z) :
  0 <= c -> loop_step c = projection_step c.
Proof.
  intros Hc. unfold loop_step, projection_step.
  rewrite Z.quot_div_nonneg by lia. reflexivity.
Qed.

Lemma projection_S (n : nat) (b : Z) :
  projection b (S n) = projection_step (projection b n).
Proof. reflexivity. Qed.

Lemma projection_nonneg (n : nat) (b : Z) : 0 <= b -> 0 <= projection b n.
Proof.
  intros Hb. induction n as [|n IH]; [assumption|].
  rewrite projection_S. pose proof (projection_step_grows _ IH). lia.
Qed.

Lemma loop_iter_projection (n : nat) (b : Z) :
  0 <= b -> Nat.iter n loop_step b = projection b n.
Proof.
  intros Hb. induction n as [|n IH]; [reflexivity|].
  change (Nat.iter (S n) loop_step b) with (loop_step (Nat.iter n loop_step b)).
  rewrite projection_S, IH.
  apply loop_step_projection_step. now apply projection_nonneg.
Qed.

Lemma projection_mono_base (n : nat) (b b' : Z) :
  b <= b' -> projection b n <= projection b' n.
Proof.
  intros Hb. induction n as [|n IH]; [assumption|].
  rewrite !projection_S. now apply projection_step_mono.
Qed.

Lemma projection_succ_grows (n : nat) (b : Z) :
  0 <= b -> projection b n < projection b (S n).
Proof.
  intros Hb. rewrite projection_S.
  apply projection_step_grows. now apply projection_nonneg.
Qed.

Lemma projection_mono_count (n n' : nat) (b : Z) :
  0 <= b -> (n <= n')%nat -> projection b n <= projection b n'.
Proof.
  intros Hb Hn. induction Hn as [|m Hm IH]; [lia|].
  pose proof (projection_succ_grows m b Hb). lia.
Qed.

(** C4. For every base fee [b >= 0] and every count [n >= 0],
    [getMaxBaseFeeInFutureBlock b n] returns the [n]-fold iteration of
    [current -> floor(current * 1125 / 1000) + 1] from [b]; zero blocks
    return [b] itself, and one block from 1000000000 gives 1125000001. *)
Theorem getMaxBaseFeeInFutureBlock_projection (b n : Z) :
  0 <= b -> 0 <= n ->
  getMaxBaseFeeInFutureBlock b n = Ok (projection b (Z.to_nat n))
  /\ getMaxBaseFeeInFutureBlock b 0 = Ok b
  /\ getMaxBaseFeeInFutureBlock 1000000000 1 = Ok 1125000001.
Proof.
  intros Hb Hn. rewrite !getMaxBaseFeeInFutureBlock_iter.
  rewrite loop_iter_projection by assumption.
  repeat split; reflexivity.
Qed.

Lemma getMaxBaseFeeInFutureBlock_projection_witness :
  getMaxBaseFeeInFutureBlock 1000000000 3 = Ok (projection 1000000000 3)
  /\ getMaxBaseFeeInFutureBlock 1000000000 0 = Ok 1000000000
  /\ getMaxBaseFeeInFutureBlock 1000000000 1 = Ok 1125000001.
Proof.
  apply (getMaxBaseFeeInFutureBlock_projection 1000000000 3); lia.
Defined.

(** C5. The projection is non-decreasing in the base fee and in the number
    of blocks, and one more block always gives a strictly larger fee. *)
Theorem getMaxBaseFeeInFutureBlock_monotone (b b' n n' : Z) :
  0 <= b <= b' -> 0 <= n <= n' ->
  exists v v' w,
    getMaxBaseFeeInFutureBlock b n = Ok v
    /\ getMaxBaseFeeInFutureBlock b' n' = Ok v'
    /\ getMaxBaseFeeInFutureBlock b (n + 1) = Ok w
    /\ v <= v' /\ v < w.
Proof.
  intros Hb Hn.
  exists (projection b (Z.to_nat n)), (projection b' (Z.to_nat n')),
         (projection b (S (Z.to_nat n))).
  rewrite !getMaxBaseFeeInFutureBlock_iter.
  rewrite !loop_iter_projection by lia.
  replace (Z.to_nat (n + 1)) with (S (Z.to_nat n)) by lia.
  repeat split.
  - transitivity (projection b (Z.to_nat n')).
    + apply projection_mono_count; lia.
    + apply projection_mono_base; lia.
  - apply projection_succ_grows; lia.
Qed.

Lemma getMaxBaseFeeInFutureBlock_monotone_witness :
  exists v v' w,
    getMaxBaseFeeInFutureBlock 7 2 = Ok v
    /\ getMaxBaseFeeInFutureBlock 9 5 = Ok v'
    /\ getMaxBaseFeeInFutureBlock 7 (2 + 1) = Ok w
    /\ v <= v' /\ v < w.
Proof.
  apply (getMaxBaseFeeInFutureBlock_monotone 7 9 2 5); lia.
Defined.

(** ** The base fee of the next block *)

Lemma bind_ok {A B : Type} (a : A) (k : A -> result B) : (Ok a ≫= k) = k a.
Proof. reflexivity. Qed.

Lemma getBaseFeeInNextBlock_target (f g L : Z) :
  g = Z.quot L 2 -> getBaseFeeInNextBlock f g L = Ok f.
Proof.
  intros ->. unfold getBaseFeeInNextBlock.
  rewrite div_num_safe by (unfold MAX_SAFE; lia). rewrite bind_ok.
  unfold eq. now rewrite Z.eqb_refl.
Qed.

Lemma getBaseFeeInNextBlock_above (f g L : Z) :
  Z.quot L 2 < g ->
  getBaseFeeInNextBlock f g L =
    if Z.quot L 2 =? 0 then Err DivisionByZero
    else Ok (f + fee_delta f (g - Z.quot L 2) (Z.quot L 2)).
Proof.
  intros Hgt. unfold getBaseFeeInNextBlock.
  rewrite div_num_safe by (unfold MAX_SAFE; lia). rewrite bind_ok.
  unfold eq, gt. destruct (Z.eqb_spec g (Z.quot L 2)); [lia|].
  rewrite Z.gtb_ltb. destruct (Z.ltb_spec (Z.quot L 2) g); [|lia].
  rewrite sub_big, bind_ok, mul_big, bind_ok.
  destruct (Z.eqb_spec (Z.quot L 2) 0) as [Hz|Hz].
  - rewrite Hz. reflexivity.
  - rewrite div_big_nonzero by assumption. rewrite bind_ok.
    unfold BASE_FEE_MAX_CHANGE_DENOMINATOR.
    rewrite div_num_safe by (unfold MAX_SAFE; lia). reflexivity.
Qed.

Lemma getBaseFeeInNextBlock_below (f g L : Z) :
  g < Z.quot L 2 ->
  getBaseFeeInNextBlock f g L =
    if Z.quot L 2 =? 0 then Err DivisionByZero
    else Ok (f - fee_delta f (Z.quot L 2 - g) (Z.quot L 2)).
Proof.
  intros Hlt. unfold getBaseFeeInNextBlock.
  rewrite div_num_safe by (unfold MAX_SAFE; lia). rewrite bind_ok.
  unfold eq, gt. destruct (Z.eqb_spec g (Z.quot L 2)); [lia|].
  rewrite Z.gtb_ltb. destruct (Z.ltb_spec (Z.quot L 2) g); [lia|].
  rewrite sub_big, bind_ok, mul_big, bind_ok.
  destruct (Z.eqb_spec (Z.quot L 2) 0) as [Hz|Hz].
  - rewrite Hz. reflexivity.
  - rewrite div_big_nonzero by assumption. rewrite bind_ok.
    unfold BASE_FEE_MAX_CHANGE_DENOMINATOR.
    rewrite div_num_safe by (unfold MAX_SAFE; lia). reflexivity.
Qed.

(** On non-negative operands the adjustment is a floor division by
    [8 * target]. *)
Lemma fee_delta_floor (f d t : Z) :
  0 <= f -> 0 <= d -> 0 < t -> fee_delta f d t = f * d / (t * 8).
Proof.
  intros Hf Hd Ht. unfold fee_delta.
  rewrite (Z.quot_div_nonneg (f * d) t) by nia.
  rewrite Z.quot_div_nonneg by (try apply Z.div_pos; nia).
  apply Z.div_div; lia.
Qed.

Lemma fee_delta_nonneg (f d t : Z) :
  0 <= f -> 0 <= d -> 0 < t -> 0 <= fee_delta f d t.
Proof.
  intros Hf Hd Ht. rewrite fee_delta_floor by assumption.
  apply Z.div_pos; nia.
Qed.

Lemma fee_delta_pos_iff (f d t : Z) :
  0 <= f -> 0 <= d -> 0 < t -> (0 < fee_delta f d t <-> 8 * t <= f * d).
Proof.
  intros Hf Hd Ht. rewrite fee_delta_floor by assumption.
  split.
  - intros Hpos. destruct (Z_lt_le_dec (f * d) (t * 8)) as [Hsmall|]; [|lia].
    rewrite Z.div_small in Hpos by nia. lia.
  - intros Hle. apply Z.div_str_pos. lia.
Qed.

Lemma fee_delta_le (f d t : Z) :
  0 <= f -> 0 <= d <= t -> 0 < t -> fee_delta f d t <= f.
Proof.
  intros Hf Hd Ht. rewrite fee_delta_floor by lia.
  apply Z.div_le_upper_bound; nia.
Qed.

(** C1 (as the code has it).  With [target = L / 2], truncating, and
    non-negative operands: the fee is returned unchanged when the gas used
    meets the target; it is raised by [f * (g - target) / target / 8] when
    the gas used exceeds a positive target; it is lowered by
    [f * (target - g) / target / 8] when the gas used is below the target. *)
Theorem getBaseFeeInNextBlock_formula (f g L : Z) :
  0 <= f -> 0 <= g -> 0 <= L ->
  (g = Z.quot L 2 -> getBaseFeeInNextBlock f g L = Ok f)
  /\ (g > Z.quot L 2 -> 0 < Z.quot L 2 ->
      getBaseFeeInNextBlock f g L =
        Ok (f + Z.quot (Z.quot (f * (g - Z.quot L 2)) (Z.quot L 2)) 8))
  /\ (g < Z.quot L 2 ->
      getBaseFeeInNextBlock f g L =
        Ok (f - Z.quot (Z.quot (f * (Z.quot L 2 - g)) (Z.quot L 2)) 8)).
Proof.
  intros Hf Hg HL. repeat split.
  - apply getBaseFeeInNextBlock_target.
  - intros Hgt Ht. rewrite getBaseFeeInNextBlock_above by lia.
    destruct (Z.eqb_spec (Z.quot L 2) 0); [lia | reflexivity].
  - intros Hlt. rewrite getBaseFeeInNextBlock_below by lia.
    destruct (Z.eqb_spec (Z.quot L 2) 0); [lia | reflexivity].
Qed.

Lemma getBaseFeeInNextBlock_formula_witness :
  getBaseFeeInNextBlock 100 20 30 = Ok 104.
Proof.
  destruct (getBaseFeeInNextBlock_formula 100 20 30) as (_ & Habove & _);
    [lia | lia | lia |].
  apply Habove; reflexivity.
Defined.

(** C1 as stated fails where the target is zero: with a gas limit of 0 and
    one unit of gas used, the call throws and returns no fee at all. *)
Lemma getBaseFeeInNextBlock_zero_target_throws :
  1 > Z.quot 0 2
  /\ getBaseFeeInNextBlock 1 1 0 = Err DivisionByZero
  /\ getBaseFeeInNextBlock 1 1 0
     <> Ok (1 + Z.quot (Z.quot (1 * (1 - Z.quot 0 2)) (Z.quot 0 2)) 8).
Proof. repeat split; discriminate. Qed.

(** C2 (as the code has it).  For a positive target the fee moves in the
    direction of the gas used, but not always strictly: above the target the
    result is at least [f], below it at most [f] (and never negative), and it
    differs from [f] exactly when [f * |g - target|] reaches [8 * target]. *)
Theorem getBaseFeeInNextBlock_direction (f g L : Z) :
  0 <= f -> 0 <= g -> 0 <= L -> 0 < Z.quot L 2 ->
  exists v,
    getBaseFeeInNextBlock f g L = Ok v
    /\ (g > Z.quot L 2 ->
        f <= v /\ (f < v <-> 8 * Z.quot L 2 <= f * (g - Z.quot L 2)))
    /\ (g < Z.quot L 2 ->
        0 <= v <= f /\ (v < f <-> 8 * Z.quot L 2 <= f * (Z.quot L 2 - g))).
Proof.
  intros Hf Hg HL Ht.
  destruct (Z.lt_trichotomy g (Z.quot L 2)) as [Hlt | [Heq | Hgt]].
  - rewrite getBaseFeeInNextBlock_below by assumption.
    destruct (Z.eqb_spec (Z.quot L 2) 0); [lia|].
    eexists; split; [reflexivity|]. split; [lia|]. intros _.
    pose proof (fee_delta_nonneg f (Z.quot L 2 - g) (Z.quot L 2)).
    pose proof (fee_delta_le f (Z.quot L 2 - g) (Z.quot L 2)).
    pose proof (fee_delta_pos_iff f (Z.quot L 2 - g) (Z.quot L 2)).
    lia.
  - rewrite getBaseFeeInNextBlock_target by assumption.
    eexists; split; [reflexivity|]. lia.
  - rewrite getBaseFeeInNextBlock_above by assumption.
    destruct (Z.eqb_spec (Z.quot L 2) 0); [lia|].
    eexists; split; [reflexivity|]. split; [|lia]. intros _.
    pose proof (fee_delta_nonneg f (g - Z.quot L 2) (Z.quot L 2)).
    pose proof (fee_delta_pos_iff f (g - Z.quot L 2) (Z.quot L 2)).
    lia.
Qed.

Lemma getBaseFeeInNextBlock_direction_witness :
  exists v,
    getBaseFeeInNextBlock 100 20 30 = Ok v
    /\ (20 > Z.quot 30 2 ->
        100 <= v /\ (100 < v <-> 8 * Z.quot 30 2 <= 100 * (20 - Z.quot 30 2)))
    /\ (20 < Z.quot 30 2 ->
        0 <= v <= 100
        /\ (v < 100 <-> 8 * Z.quot 30 2 <= 100 * (Z.quot 30 2 - 20))).
Proof.
  apply (getBaseFeeInNextBlock_direction 100 20 30);
    [lia | lia | lia | reflexivity].
Defined.

(** C2 as stated fails: with fee 7 and target 2 the adjustment truncates to
    zero, so the fee stays at 7 both above (3) and below (1) the target. *)
Lemma getBaseFeeInNextBlock_not_strict :
  0 < Z.quot 4 2
  /\ 3 > Z.quot 4 2 /\ getBaseFeeInNextBlock 7 3 4 = Ok 7
  /\ 1 < Z.quot 4 2 /\ getBaseFeeInNextBlock 7 1 4 = Ok 7.
Proof. repeat split. Qed.

(** ** Bundle pricing *)

Lemma overflow_only_bind {A B : Type} (m : result A) (k : A -> result B) :
  overflow_only m -> (forall a, overflow_only (k a)) -> overflow_only (m ≫= k).
Proof. destruct m as [a|e]; cbn; intros Hm Hk; [apply Hk | exact Hm]. Qed.

Lemma from_num_overflow_only (n : Z) : overflow_only (from (Num n)).
Proof.
  unfold from.
  destruct ((n >=? MAX_SAFE) || (n <=? - MAX_SAFE)); cbn; trivial.
Qed.

Lemma mul_num_safe (a n : Z) :
  - MAX_SAFE < n < MAX_SAFE -> mul a (Num n) = Ok (a * n).
Proof. intros Hn. unfold mul. now rewrite from_num_safe. Qed.

Lemma mul_num_overflow_only (a n : Z) : overflow_only (mul a (Num n)).
Proof.
  unfold mul. apply overflow_only_bind; [apply from_num_overflow_only|].
  intros; exact I.
Qed.

Lemma div_num_pos_overflow_only (a n : Z) :
  0 < n -> overflow_only (div a (Num n)).
Proof.
  intros Hn. unfold div, from.
  destruct ((n >=? MAX_SAFE) || (n <=? - MAX_SAFE)); cbn; [reflexivity|].
  destruct (Z.eqb_spec n 0); [lia | exact I].
Qed.

Lemma sum_over_cons (w : Tx.t -> Z) (r : Tx.t) (l : list Tx.t) :
  sum_over w (r :: l) = w r + sum_over w l.
Proof. reflexivity. Qed.

Lemma sum_over_abs_nonneg (l : list Tx.t) : 0 <= gas_magnitude l.
Proof.
  unfold gas_magnitude. induction l as [|r l IH]; [reflexivity|].
  rewrite sum_over_cons. lia.
Qed.

Lemma total_gas_magnitude (l : list Tx.t) :
  Z.abs (total_gas l) <= gas_magnitude l.
Proof.
  unfold total_gas, gas_magnitude. induction l as [|r l IH]; [reflexivity|].
  rewrite !sum_over_cons. lia.
Qed.

(** The callback on a record whose gas is a safe integer. *)
Lemma pricing_step_safe (baseFee : Z) (acc : Acc.t) (r : Tx.t) :
  - MAX_SAFE < Tx.gas_used r < MAX_SAFE ->
  pricing_step baseFee acc r =
    Ok (Acc.mk
          (Acc.gasUsed acc + Tx.gas_used r)
          (Acc.gasFeesPaidBySearcher acc + Tx.gas_price r * Tx.gas_used r)
          (Acc.priorityFeesReceivedByMiner acc
           + (Tx.gas_price r - baseFee) * Tx.gas_used r)
          (Acc.coinbase_transfer acc + default 0 (Tx.coinbase_transfer r))).
Proof.
  intros Hg. unfold pricing_step.
  change (from (Big (Tx.gas_price r))) with (Ok (Tx.gas_price r)).
  rewrite bind_ok, sub_big, bind_ok.
  rewrite !mul_num_safe by assumption.
  destruct (Tx.coinbase_transfer r) as [c|]; reflexivity.
Qed.

Lemma pricing_step_overflow_only (baseFee : Z) (acc : Acc.t) (r : Tx.t) :
  overflow_only (pricing_step baseFee acc r).
Proof.
  unfold pricing_step.
  change (from (Big (Tx.gas_price r))) with (Ok (Tx.gas_price r)).
  rewrite bind_ok, sub_big, bind_ok.
  apply overflow_only_bind.
  { destruct (Tx.coinbase_transfer r); exact I. }
  intros c. apply overflow_only_bind; [apply mul_num_overflow_only|].
  intros fees. apply overflow_only_bind; [exact I|].
  intros gasFees. apply overflow_only_bind; [apply mul_num_overflow_only|].
  intros tips. apply overflow_only_bind; [exact I|].
  intros priorityFees. apply overflow_only_bind; [exact I|].
  intros coinbase. exact I.
Qed.

Lemma reduce_overflow_only (baseFee : Z) (l : list Tx.t) :
  forall acc, overflow_only (reduce (pricing_step baseFee) l acc).
Proof.
  induction l as [|r l IH]; intros acc; cbn [reduce]; [exact I|].
  apply overflow_only_bind; [apply pricing_step_overflow_only | apply IH].
Qed.

(** The [reduce] adds the reference totals to its initial accumulator. *)
Lemma reduce_pricing_totals (baseFee : Z) (l : list Tx.t) :
  forall acc, gas_magnitude l < MAX_SAFE ->
    reduce (pricing_step baseFee) l acc =
      Ok (Acc.mk
            (Acc.gasUsed acc + total_gas l)
            (Acc.gasFeesPaidBySearcher acc + total_fees l)
            (Acc.priorityFeesReceivedByMiner acc
             + total_priority_fees baseFee l)
            (Acc.coinbase_transfer acc + total_coinbase l)).
Proof.
  induction l as [|r l IH]; intros acc Hm.
  - destruct acc. cbn [reduce]. unfold total_gas, total_fees,
      total_priority_fees, total_coinbase. cbn [sum_over foldr].
    cbn [Acc.gasUsed Acc.gasFeesPaidBySearcher Acc.priorityFeesReceivedByMiner
         Acc.coinbase_transfer].
    rewrite !Z.add_0_r. reflexivity.
  - pose proof (sum_over_abs_nonneg l) as Hl.
    cbn [reduce]. unfold gas_magnitude in Hm, Hl. rewrite sum_over_cons in Hm.
    rewrite pricing_step_safe by lia. rewrite bind_ok.
    rewrite IH by (unfold gas_magnitude; lia).
    unfold total_gas, total_fees, total_priority_fees, total_coinbase.
    rewrite !sum_over_cons.
    cbn [Acc.gasUsed Acc.gasFeesPaidBySearcher Acc.priorityFeesReceivedByMiner
         Acc.coinbase_transfer].
    rewrite !Z.add_assoc. reflexivity.
Qed.

Lemma guarded_division (coinbase fees gas : Z) :
  gas < MAX_SAFE ->
  (if gas >? 0 then s ← add coinbase (Big fees); div s (Num gas)
   else from (Num 0))
  = Ok (effective_price coinbase fees gas).
Proof.
  intros Hg. unfold effective_price. rewrite Z.gtb_ltb.
  destruct (Z.ltb_spec 0 gas); [|reflexivity].
  rewrite add_big, bind_ok. now rewrite div_num_safe by lia.
Qed.

Lemma guarded_division_overflow_only (coinbase fees gas : Z) :
  overflow_only
    (if gas >? 0 then s ← add coinbase (Big fees); div s (Num gas)
     else from (Num 0)).
Proof.
  rewrite Z.gtb_ltb. destruct (Z.ltb_spec 0 gas); [|exact I].
  rewrite add_big, bind_ok. now apply div_num_pos_overflow_only.
Qed.

Lemma calculateBundlePricing_reference (txs : list Tx.t) (baseFee : Z) :
  gas_magnitude txs < MAX_SAFE ->
  calculateBundlePricing txs baseFee = Ok (reference_pricing txs baseFee).
Proof.
  intros Hm. pose proof (total_gas_magnitude txs) as Hg.
  unfold calculateBundlePricing.
  change pricing_init with (Ok (Acc.mk 0 0 0 0)). rewrite bind_ok.
  rewrite reduce_pricing_totals by assumption. rewrite bind_ok.
  cbn [Acc.gasUsed Acc.gasFeesPaidBySearcher Acc.priorityFeesReceivedByMiner
       Acc.coinbase_transfer]. rewrite !Z.add_0_l.
  rewrite !guarded_division by lia. reflexivity.
Qed.

Lemma calculateBundlePricing_overflow_only (txs : list Tx.t) (baseFee : Z) :
  overflow_only (calculateBundlePricing txs baseFee).
Proof.
  unfold calculateBundlePricing.
  change pricing_init with (Ok (Acc.mk 0 0 0 0)). rewrite bind_ok.
  apply overflow_only_bind; [apply reduce_overflow_only|]. intros acc.
  apply overflow_only_bind; [apply guarded_division_overflow_only|]. intros p.
  apply overflow_only_bind; [apply guarded_division_overflow_only|]. intros q.
  exact I.
Qed.

(** C6 (as the code has it).  Whenever the bundle's gas stays within the
    safe integers (the absolute values of [gas_used] sum to less than
    [2^53 - 1], so that no conversion of a gas figure overflows),
    [calculateBundlePricing] returns the reference
    sums: total gas, total [gas_price * gas_used], total
    [(gas_price - baseFee) * gas_used] without clamping, total coinbase
    transfer, the number of records, and the two guarded quotients.  For the
    single record of 100 gas at price 50 with base fee 10 it returns 5000,
    4000, 50 and 40; a price below the base fee contributes a negative
    priority fee. *)
Theorem calculateBundlePricing_sums (txs : list Tx.t) (baseFee : Z) :
  gas_magnitude txs < MAX_SAFE ->
  (exists r,
     calculateBundlePricing txs baseFee = Ok r
     /\ Pricing.gasUsed r = total_gas txs
     /\ Pricing.gasFeesPaidBySearcher r = total_fees txs
     /\ Pricing.priorityFeesReceivedByMiner r = total_priority_fees baseFee txs
     /\ Pricing.coinbase_transfer r = total_coinbase txs
     /\ Pricing.txCount r = Z.of_nat (length txs)
     /\ Pricing.effectiveGasPriceToSearcher r =
          effective_price (total_coinbase txs) (total_fees txs) (total_gas txs)
     /\ Pricing.effectivePriorityFeeToMiner r =
          effective_price (total_coinbase txs)
            (total_priority_fees baseFee txs) (total_gas txs))
  /\ (exists r,
        calculateBundlePricing [record 100 50 (Some 0)] 10 = Ok r
        /\ Pricing.gasFeesPaidBySearcher r = 5000
        /\ Pricing.priorityFeesReceivedByMiner r = 4000
        /\ Pricing.effectiveGasPriceToSearcher r = 50
        /\ Pricing.effectivePriorityFeeToMiner r = 40)
  /\ (exists r,
        calculateBundlePricing [record 100 5 (Some 0)] 10 = Ok r
        /\ Pricing.priorityFeesReceivedByMiner r = -500).
Proof.
  intros Hm. split; [|split].
  - exists (reference_pricing txs baseFee).
    split; [now apply calculateBundlePricing_reference|].
    repeat split.
  - eexists. split; [reflexivity|]. repeat split.
  - eexists. split; [reflexivity|]. reflexivity.
Qed.

Lemma calculateBundlePricing_sums_witness :
  exists r,
    calculateBundlePricing
      [record 21000 30 (Some 4); record 50000 12 None] 20 = Ok r
    /\ Pricing.gasUsed r = 71000
    /\ Pricing.priorityFeesReceivedByMiner r = -190000.
Proof.
  destruct (calculateBundlePricing_sums
              [record 21000 30 (Some 4); record 50000 12 None] 20)
    as [(r & Hr & Hgas & _ & Htips & _) _]; [reflexivity|].
  exists r. split; [exact Hr|]. split; [exact Hgas | exact Htips].
Defined.

(** C6 as stated fails on a bundle whose gas leaves the safe integers: a
    single record of [2^53 - 1] gas makes the multiplication by [gas_used]
    throw the overflow fault, so no sums are returned. *)
Lemma calculateBundlePricing_unsafe_gas_throws :
  0 <= 9007199254740991
  /\ calculateBundlePricing [record 9007199254740991 1 (Some 0)] 10
     = Err NumericOverflow
  /\ is_ok (calculateBundlePricing [record 9007199254740991 1 (Some 0)] 10)
     = false.
Proof. repeat split. discriminate. Qed.

(** C7. On the empty list [calculateBundlePricing] returns a transaction
    count of 0 and both effective prices equal to 0, whatever the base fee:
    the guard skips both divisions. *)
Theorem calculateBundlePricing_empty (baseFee : Z) :
  exists r,
    calculateBundlePricing [] baseFee = Ok r
    /\ Pricing.txCount r = 0
    /\ Pricing.effectiveGasPriceToSearcher r = 0
    /\ Pricing.effectivePriorityFeeToMiner r = 0.
Proof. eexists. split; [reflexivity|]. repeat split. Qed.

(** C10. The guard of the two divisions tests the total gas, not the number
    of records: a non-empty bundle whose gas sums to 0 gets 0 for both
    effective prices, with no division performed, although its transaction
    count is positive. *)
Theorem calculateBundlePricing_zero_gas (txs : list Tx.t) (baseFee : Z) :
  txs <> [] -> gas_magnitude txs < MAX_SAFE -> total_gas txs = 0 ->
  exists r,
    calculateBundlePricing txs baseFee = Ok r
    /\ 0 < Pricing.txCount r
    /\ Pricing.coinbase_transfer r = total_coinbase txs
    /\ Pricing.gasFeesPaidBySearcher r = total_fees txs
    /\ Pricing.effectiveGasPriceToSearcher r = 0
    /\ Pricing.effectivePriorityFeeToMiner r = 0.
Proof.
  intros Hne Hm Hz. exists (reference_pricing txs baseFee).
  split; [now apply calculateBundlePricing_reference|].
  unfold reference_pricing; cbn. rewrite Hz. unfold effective_price. cbn.
  repeat split. destruct txs; [contradiction | cbn; lia].
Qed.

Lemma calculateBundlePricing_zero_gas_witness :
  exists r,
    calculateBundlePricing [record 0 30 (Some 7); record 0 12 None] 20 = Ok r
    /\ 0 < Pricing.txCount r
    /\ Pricing.coinbase_transfer r =
         total_coinbase [record 0 30 (Some 7); record 0 12 None]
    /\ Pricing.gasFeesPaidBySearcher r =
         total_fees [record 0 30 (Some 7); record 0 12 None]
    /\ Pricing.effectiveGasPriceToSearcher r = 0
    /\ Pricing.effectivePriorityFeeToMiner r = 0.
Proof.
  apply (calculateBundlePricing_zero_gas
           [record 0 30 (Some 7); record 0 12 None] 20);
    [discriminate | reflexivity | reflexivity].
Defined.

(** C3 (as the code has it).  [getMaxBaseFeeInFutureBlock] always returns;
    [calculateBundlePricing] returns or throws the overflow fault, and
    returns when the bundle's gas is within the safe integers;
    [getBaseFeeInNextBlock] returns when the gas used meets the target or the
    gas limit is at least 2, and throws division-by-zero when the gas limit
    is 0 or 1 and gas was used. *)
Theorem fee_functions_failure_modes
    (b n f g L baseFee : Z) (txs : list Tx.t) :
  0 <= f -> 0 <= g -> 0 <= L ->
  is_ok (getMaxBaseFeeInFutureBlock b n) = true
  /\ overflow_only (calculateBundlePricing txs baseFee)
  /\ (gas_magnitude txs < MAX_SAFE ->
      is_ok (calculateBundlePricing txs baseFee) = true)
  /\ (g = Z.quot L 2 \/ 2 <= L ->
      is_ok (getBaseFeeInNextBlock f g L) = true)
  /\ (L < 2 -> 0 < g ->
      getBaseFeeInNextBlock f g L = Err DivisionByZero).
Proof.
  intros Hf Hg HL.
  assert (Hq : Z.quot L 2 = L / 2) by (apply Z.quot_div_nonneg; lia).
  split; [|split; [|split; [|split]]].
  - now rewrite getMaxBaseFeeInFutureBlock_iter.
  - apply calculateBundlePricing_overflow_only.
  - intros Hm. now rewrite calculateBundlePricing_reference.
  - intros Hcase.
    destruct (Z.lt_trichotomy g (Z.quot L 2)) as [Hlt | [Heq | Hgt]].
    + rewrite getBaseFeeInNextBlock_below by assumption.
      destruct (Z.eqb_spec (Z.quot L 2) 0); [lia | reflexivity].
    + now rewrite getBaseFeeInNextBlock_target.
    + rewrite getBaseFeeInNextBlock_above by assumption.
      destruct (Z.eqb_spec (Z.quot L 2) 0) as [Hz|]; [|reflexivity].
      destruct Hcase as [Heq | HL2]; [lia|].
      rewrite Hq in Hz. assert (1 <= L / 2) by (apply Z.div_le_lower_bound; lia).
      lia.
  - intros HL2 Hpos.
    assert (Hz : Z.quot L 2 = 0) by (rewrite Hq; apply Z.div_small; lia).
    rewrite getBaseFeeInNextBlock_above by lia. now rewrite Hz.
Qed.

Lemma fee_functions_failure_modes_witness :
  is_ok (getMaxBaseFeeInFutureBlock 1000000000 4) = true
  /\ overflow_only (calculateBundlePricing [record 21000 30 (Some 4)] 20)
  /\ (gas_magnitude [record 21000 30 (Some 4)] < MAX_SAFE ->
      is_ok (calculateBundlePricing [record 21000 30 (Some 4)] 20) = true)
  /\ (21000 = Z.quot 30000 2 \/ 2 <= 30000 ->
      is_ok (getBaseFeeInNextBlock 100 21000 30000) = true)
  /\ (30000 < 2 -> 0 < 21000 ->
      getBaseFeeInNextBlock 100 21000 30000 = Err DivisionByZero).
Proof.
  apply (fee_functions_failure_modes
           1000000000 4 100 21000 30000 20 [record 21000 30 (Some 4)]); lia.
Defined.

(** C3 as stated fails: with a gas limit of 1 the target is 0, and any gas
    used makes [getBaseFeeInNextBlock] throw division-by-zero. *)
Lemma getBaseFeeInNextBlock_gas_limit_one_throws :
  Z.quot 1 2 = 0
  /\ is_ok (getBaseFeeInNextBlock 5 3 1) = false
  /\ getBaseFeeInNextBlock 5 3 1 = Err DivisionByZero.
Proof. repeat split. Qed.

(** ** Request ids *)

Lemma seqZ_increasing (n : nat) :
  forall m, StronglySorted Z.lt (seqZ m (Z.of_nat n)).
Proof.
  induction n as [|n IH]; intros m.
  - rewrite seqZ_nil by lia. constructor.
  - rewrite seqZ_cons by lia.
    replace (Z.pred (Z.of_nat (S n))) with (Z.of_nat n) by lia.
    constructor; [apply IH|]. apply Forall_seqZ. lia.
Qed.

Lemma prepareRelayRequest_id (this : GasProvider.t) (method : RelayMethod)
    (params : list RpcParam) :
  Envelope.id (prepareRelayRequest this method params).1 = _nextId this
  /\ _nextId (prepareRelayRequest this method params).2 = _nextId this + 1.
Proof. split; reflexivity. Qed.

Lemma run_prepare (utils_id : string -> string) (method : RelayMethod)
    (params : list RpcParam) (rest : list call) (this : GasProvider.t) :
  run utils_id (Prepare method params :: rest) this =
    ((prepareRelayRequest this method params).1
       :: (run utils_id rest (prepareRelayRequest this method params).2).1,
     (run utils_id rest (prepareRelayRequest this method params).2).2).
Proof.
  cbn [run]. unfold prepareRelayRequest. cbn [fst snd].
  now destruct (run utils_id rest _).
Qed.

Lemma run_send (utils_id : string -> string) (body : string)
    (rest : list call) (this : GasProvider.t) :
  run utils_id (Send body :: rest) this = run utils_id rest this.
Proof. reflexivity. Qed.

Lemma run_ids (utils_id : string -> string) (calls : list call) :
  forall this,
    Envelope.id <$> (run utils_id calls this).1
      = seqZ (_nextId this) (Z.of_nat (prepared calls))
    /\ _nextId (run utils_id calls this).2
      = _nextId this + Z.of_nat (prepared calls).
Proof.
  induction calls as [|c calls IH]; intros this.
  - cbn. split; [reflexivity | lia].
  - destruct c as [method params | body].
    + rewrite run_prepare. cbn [fst snd].
      destruct (IH (prepareRelayRequest this method params).2)
        as [Hids Hnext].
      destruct (prepareRelayRequest_id this method params) as [Hid Hsucc].
      rewrite Hsucc in Hids, Hnext.
      change (prepared (Prepare method params :: calls))
        with (S (prepared calls)).
      split; [|lia].
      rewrite (seqZ_cons (_nextId this)) by lia.
      replace (Z.pred (Z.of_nat (S (prepared calls))))
        with (Z.of_nat (prepared calls)) by lia.
      rewrite fmap_cons, Hid. f_equal. exact Hids.
    + rewrite run_send. apply IH.
Qed.

(** C8. Every call to [prepareRelayRequest] hands out the current counter
    as the envelope's id and advances the counter by exactly one; sending a
    request leaves the counter alone.  Hence any sequence of calls on one
    client that prepares [N] envelopes gives them the ids
    [c, c + 1, ..., c + N - 1] in order, [c] being the counter at the start:
    distinct, strictly increasing, without gaps, and the counter ends at
    [c + N]. *)
Theorem prepareRelayRequest_counter (utils_id : string -> string)
    (calls : list call) (this : GasProvider.t) :
  (forall method params,
     Envelope.id (prepareRelayRequest this method params).1 = _nextId this
     /\ _nextId (prepareRelayRequest this method params).2 = _nextId this + 1)
  /\ length (run utils_id calls this).1 = prepared calls
  /\ Envelope.id <$> (run utils_id calls this).1
     = seqZ (_nextId this) (Z.of_nat (prepared calls))
  /\ _nextId (run utils_id calls this).2
     = _nextId this + Z.of_nat (prepared calls)
  /\ NoDup (Envelope.id <$> (run utils_id calls this).1)
  /\ StronglySorted Z.lt (Envelope.id <$> (run utils_id calls this).1).
Proof.
  destruct (run_ids utils_id calls this) as [Hids Hnext].
  split; [intros; apply prepareRelayRequest_id|].
  split.
  { rewrite <- (length_fmap Envelope.id), Hids, length_seqZ. lia. }
  rewrite Hids. repeat split.
  - exact Hnext.
  - apply NoDup_seqZ.
  - apply seqZ_increasing.
Qed.

(** ** Request headers *)

Lemma spread_lookup (target h : gmap string string) (k : string) :
  spread target (Some h) !! k =
    match h !! k with
    | Some v => Some v
    | None => target !! k
    end.
Proof.
  unfold spread. revert k.
  apply (map_fold_weak_ind
           (fun (r : gmap string string) (m : gmap string string) =>
              forall k, r !! k = match m !! k with
                                 | Some v => Some v
                                 | None => target !! k
                                 end)).
  - intros k. now rewrite lookup_empty.
  - intros i x m r Hfresh IH k.
    destruct (decide (i = k)) as [->|Hne].
    + now rewrite !lookup_insert_eq.
    + rewrite !lookup_insert_ne by assumption. apply IH.
Qed.

Lemma spread_headers_lookup (target : gmap string string)
    (c : ConnectionInfo.t) (k : string) :
  spread target (ConnectionInfo.headers c) !! k =
    match headers_of c !! k with
    | Some v => Some v
    | None => target !! k
    end.
Proof.
  unfold headers_of. destruct (ConnectionInfo.headers c) as [h|]; cbn [default].
  - apply spread_lookup.
  - now rewrite lookup_empty.
Qed.

(** C9. When the signer answers, [request] hands [fetchJson] the body and a
    copy of the connection whose headers are the signature entry overwritten
    by the connection's own headers: every pre-existing header is sent with
    its value, also under the key [X-Flashbots-Signature]; without such a key
    the fresh [<address>:<signature>] is sent under it; nothing else is
    added. *)
Theorem request_headers (utils_id : string -> string) (this : GasProvider.t)
    (body address signature : string) :
  getAddress (authSigner this) = Ok address ->
  signMessage (authSigner this) (utils_id body) = Ok signature ->
  exists sent hs,
    request utils_id this body = Ok (sent, body)
    /\ ConnectionInfo.url sent = ConnectionInfo.url (connectionInfo this)
    /\ ConnectionInfo.headers sent = Some hs
    /\ (forall k v, headers_of (connectionInfo this) !! k = Some v ->
                    hs !! k = Some v)
    /\ (headers_of (connectionInfo this) !! SIGNATURE_HEADER = None ->
        hs !! SIGNATURE_HEADER = Some (address +:+ ":" +:+ signature))
    /\ (forall k, k <> SIGNATURE_HEADER ->
                  hs !! k = headers_of (connectionInfo this) !! k).
Proof.
  intros Haddr Hsig. unfold request. rewrite Haddr, bind_ok, Hsig, bind_ok.
  eexists _, _. split; [reflexivity|]. split; [reflexivity|].
  split; [reflexivity|]. repeat split.
  - intros k v Hk. now rewrite spread_headers_lookup, Hk.
  - intros Hnone. rewrite spread_headers_lookup, Hnone.
    apply lookup_singleton_eq.
  - intros k Hk. rewrite spread_headers_lookup.
    destruct (headers_of (connectionInfo this) !! k); [reflexivity|].
    now apply lookup_singleton_ne.
Qed.

Lemma request_headers_witness :
  exists sent hs,
    request (fun text => text) example_client "{}" = Ok (sent, "{}")
    /\ ConnectionInfo.url sent
       = ConnectionInfo.url (connectionInfo example_client)
    /\ ConnectionInfo.headers sent = Some hs
    /\ (forall k v, headers_of (connectionInfo example_client) !! k = Some v ->
                    hs !! k = Some v)
    /\ (headers_of (connectionInfo example_client) !! SIGNATURE_HEADER = None ->
        hs !! SIGNATURE_HEADER = Some ("0xA11CE" +:+ ":" +:+ "signed:{}"))
    /\ (forall k, k <> SIGNATURE_HEADER ->
                  hs !! k = headers_of (connectionInfo example_client) !! k).
Proof.
  apply (request_headers (fun text => text) example_client "{}"
           "0xA11CE" "signed:{}"); reflexivity.
Defined.

(** On a collision the caller's value is the one sent; without one, the
    fresh signature header is. *)
Example request_collision :
  sent_header (request (fun text => text) example_client "{}")
    SIGNATURE_HEADER = Some "caller"
  /\ sent_header (request (fun text => text) example_client "{}")
       "Accept" = Some "json"
  /\ sent_header (request (fun text => text) plain_client "{}")
       SIGNATURE_HEADER = Some "0xA11CE:signed:{}".
Proof. repeat split; vm_compute; reflexivity. Qed.

(** * Further properties of the fee projection *)

Lemma iterate_add (k j : nat) (c : Z) :
  Nat.iter (k + j) loop_step c = Nat.iter k loop_step (Nat.iter j loop_step c).
Proof. apply Nat.iter_add. Qed.

(** X1. Projecting [m] blocks ahead and then [n] more from the result is
    projecting [m + n] blocks ahead. *)
Theorem getMaxBaseFeeInFutureBlock_compose (b m n : Z) :
  0 <= m -> 0 <= n ->
  getMaxBaseFeeInFutureBlock b (m + n)
  = (getMaxBaseFeeInFutureBlock b m
       ≫= fun v => getMaxBaseFeeInFutureBlock v n).
Proof.
  intros Hm Hn. rewrite (getMaxBaseFeeInFutureBlock_iter b m), bind_ok.
  rewrite !getMaxBaseFeeInFutureBlock_iter.
  replace (Z.to_nat (m + n)) with (Z.to_nat n + Z.to_nat m)%nat by lia.
  now rewrite iterate_add.
Qed.

Lemma getMaxBaseFeeInFutureBlock_compose_witness :
  getMaxBaseFeeInFutureBlock 1000000000 (2 + 3)
  = (getMaxBaseFeeInFutureBlock 1000000000 2
       ≫= fun v => getMaxBaseFeeInFutureBlock v 3).
Proof.
  apply (getMaxBaseFeeInFutureBlock_compose 1000000000 2 3); lia.
Defined.

Lemma projection_step_bounds (c : Z) :
  9 * c <= 8 * projection_step c /\ 8 * (projection_step c + 8) <= 9 * (c + 8).
Proof.
  unfold projection_step.
  pose proof (Z.div_mod (c * 1125) 1000).
  pose proof (Z.mod_pos_bound (c * 1125) 1000). lia.
Qed.

Lemma projection_compound (n : nat) (b : Z) :
  0 <= b ->
  9 ^ Z.of_nat n * b <= 8 ^ Z.of_nat n * projection b n
  /\ 8 ^ Z.of_nat n * (projection b n + 8) <= 9 ^ Z.of_nat n * (b + 8).
Proof.
  intros Hb. induction n as [|n [IHlo IHhi]].
  - cbn. lia.
  - rewrite projection_S, Nat2Z.inj_succ, !Z.pow_succ_r by lia.
    destruct (projection_step_bounds (projection b n)) as [Hlo Hhi].
    assert (0 < 8 ^ Z.of_nat n) by (apply Z.pow_pos_nonneg; lia).
    assert (0 < 9 ^ Z.of_nat n) by (apply Z.pow_pos_nonneg; lia).
    split; nia.
Qed.

(** X2. The projection over [n] blocks is never below 12.5% compound growth
    of the base fee, and never above that growth applied to [b + 8]:
    [9^n * b <= 8^n * v] and [8^n * (v + 8) <= 9^n * (b + 8)]. *)
Theorem getMaxBaseFeeInFutureBlock_compound (b n : Z) :
  0 <= b -> 0 <= n ->
  exists v,
    getMaxBaseFeeInFutureBlock b n = Ok v
    /\ 9 ^ n * b <= 8 ^ n * v
    /\ 8 ^ n * (v + 8) <= 9 ^ n * (b + 8).
Proof.
  intros Hb Hn. exists (projection b (Z.to_nat n)).
  rewrite getMaxBaseFeeInFutureBlock_iter, loop_iter_projection by assumption.
  split; [reflexivity|].
  pose proof (projection_compound (Z.to_nat n) b Hb) as H.
  now rewrite Z2Nat.id in H by assumption.
Qed.

Lemma getMaxBaseFeeInFutureBlock_compound_witness :
  exists v,
    getMaxBaseFeeInFutureBlock 1000000000 10 = Ok v
    /\ 9 ^ 10 * 1000000000 <= 8 ^ 10 * v
    /\ 8 ^ 10 * (v + 8) <= 9 ^ 10 * (1000000000 + 8).
Proof.
  apply (getMaxBaseFeeInFutureBlock_compound 1000000000 10); lia.
Defined.

(** X3. A zero or negative number of blocks never enters the loop: the base
    fee comes back unchanged, whatever its sign. *)
Theorem getMaxBaseFeeInFutureBlock_no_blocks (b n : Z) :
  n <= 0 -> getMaxBaseFeeInFutureBlock b n = Ok b.
Proof.
  intros Hn. rewrite getMaxBaseFeeInFutureBlock_iter.
  now replace (Z.to_nat n) with 0%nat by lia.
Qed.

Lemma getMaxBaseFeeInFutureBlock_no_blocks_witness :
  getMaxBaseFeeInFutureBlock 1000000000 (-3) = Ok 1000000000.
Proof. apply (getMaxBaseFeeInFutureBlock_no_blocks 1000000000 (-3)); lia. Defined.

(** * Further properties of the next-block fee *)

Lemma getBaseFeeInNextBlock_next_fee (f g L : Z) :
  Z.quot L 2 <> 0 ->
  getBaseFeeInNextBlock f g L = Ok (next_fee f g (Z.quot L 2)).
Proof.
  intros Ht. unfold next_fee.
  destruct (Z.eqb_spec g (Z.quot L 2)) as [Heq|Hne].
  - now apply getBaseFeeInNextBlock_target.
  - rewrite Z.gtb_ltb. destruct (Z.ltb_spec (Z.quot L 2) g).
    + rewrite getBaseFeeInNextBlock_above by assumption.
      destruct (Z.eqb_spec (Z.quot L 2) 0); [contradiction | reflexivity].
    + rewrite getBaseFeeInNextBlock_below by lia.
      destruct (Z.eqb_spec (Z.quot L 2) 0); [contradiction | reflexivity].
Qed.

(** On a non-negative fee and a positive target, the fee is [f] moved by a
    floor quotient. *)
Lemma next_fee_floor (f g t : Z) :
  0 <= f -> 0 < t ->
  next_fee f g t =
    if g <? t then f - f * (t - g) / (t * 8) else f + f * (g - t) / (t * 8).
Proof.
  intros Hf Ht. unfold next_fee.
  destruct (Z.eqb_spec g t) as [->|Hne].
  - rewrite Z.ltb_irrefl, Z.sub_diag, Z.mul_0_r, Z.div_0_l by lia. lia.
  - rewrite Z.gtb_ltb.
    destruct (Z.ltb_spec t g); destruct (Z.ltb_spec g t); try lia;
      now rewrite fee_delta_floor by lia.
Qed.

Lemma scaled_delta_le (f d t : Z) :
  0 <= f -> 0 <= d <= t -> 0 < t -> f * d / (t * 8) <= f / 8.
Proof.
  intros Hf Hd Ht. apply Z.div_le_lower_bound; [lia|].
  pose proof (Z.mul_div_le (f * d) (t * 8)). nia.
Qed.

Lemma next_fee_mono_gas (f g g' t : Z) :
  0 <= f -> 0 < t -> g <= g' -> next_fee f g t <= next_fee f g' t.
Proof.
  intros Hf Ht Hg. rewrite !next_fee_floor by assumption.
  destruct (Z.ltb_spec g t); destruct (Z.ltb_spec g' t); try lia.
  - assert (f * (t - g') / (t * 8) <= f * (t - g) / (t * 8))
      by (apply Z.div_le_mono; nia). lia.
  - assert (0 <= f * (t - g) / (t * 8)) by (apply Z.div_pos; nia).
    assert (0 <= f * (g' - t) / (t * 8)) by (apply Z.div_pos; nia). lia.
  - assert (f * (g - t) / (t * 8) <= f * (g' - t) / (t * 8))
      by (apply Z.div_le_mono; nia). lia.
Qed.

Lemma next_fee_mono_fee (f f' g t : Z) :
  0 <= f <= f' -> 0 < t -> 0 <= g -> next_fee f g t <= next_fee f' g t.
Proof.
  intros Hf Ht Hg. rewrite !next_fee_floor by lia.
  destruct (Z.ltb_spec g t).
  - assert (f' * (t - g) / (t * 8) <= f * (t - g) / (t * 8) + (f' - f)).
    { rewrite <- Z.div_add by lia. apply Z.div_le_mono; nia. }
    lia.
  - assert (f * (g - t) / (t * 8) <= f' * (g - t) / (t * 8))
      by (apply Z.div_le_mono; nia). lia.
Qed.

Lemma next_fee_within_eighth (f g t : Z) :
  0 <= f -> 0 < t -> 0 <= g <= 2 * t ->
  f - f / 8 <= next_fee f g t <= f + f / 8.
Proof.
  intros Hf Ht Hg. rewrite next_fee_floor by assumption.
  assert (0 <= f / 8) by (apply Z.div_pos; lia).
  destruct (Z.ltb_spec g t).
  - pose proof (scaled_delta_le f (t - g) t).
    assert (0 <= f * (t - g) / (t * 8)) by (apply Z.div_pos; nia). lia.
  - pose proof (scaled_delta_le f (g - t) t).
    assert (0 <= f * (g - t) / (t * 8)) by (apply Z.div_pos; nia). lia.
Qed.

(** X4. For a fixed non-negative base fee and a gas limit of at least 2, the
    next-block fee never decreases when the gas used increases. *)
Theorem getBaseFeeInNextBlock_monotone_gas (f g g' L : Z) :
  0 <= f -> 0 < Z.quot L 2 -> g <= g' ->
  exists v v',
    getBaseFeeInNextBlock f g L = Ok v
    /\ getBaseFeeInNextBlock f g' L = Ok v'
    /\ v <= v'.
Proof.
  intros Hf Ht Hg. rewrite !getBaseFeeInNextBlock_next_fee by lia.
  eexists _, _. split; [reflexivity|]. split; [reflexivity|].
  now apply next_fee_mono_gas.
Qed.

Lemma getBaseFeeInNextBlock_monotone_gas_witness :
  exists v v',
    getBaseFeeInNextBlock 100 12 30 = Ok v
    /\ getBaseFeeInNextBlock 100 20 30 = Ok v'
    /\ v <= v'.
Proof.
  apply (getBaseFeeInNextBlock_monotone_gas 100 12 20 30);
    [lia | reflexivity | lia].
Defined.

(** X5. For a positive target and gas used up to twice the target, the
    next-block fee differs from the current fee by at most an eighth of it
    (rounded down). *)
Theorem getBaseFeeInNextBlock_within_eighth (f g L : Z) :
  0 <= f -> 0 < Z.quot L 2 -> 0 <= g <= 2 * Z.quot L 2 ->
  exists v,
    getBaseFeeInNextBlock f g L = Ok v
    /\ f - f / 8 <= v <= f + f / 8.
Proof.
  intros Hf Ht Hg. rewrite getBaseFeeInNextBlock_next_fee by lia.
  eexists. split; [reflexivity|]. now apply next_fee_within_eighth.
Qed.

Lemma getBaseFeeInNextBlock_within_eighth_witness :
  exists v,
    getBaseFeeInNextBlock 100 30 30 = Ok v
    /\ 100 - 100 / 8 <= v <= 100 + 100 / 8.
Proof.
  apply (getBaseFeeInNextBlock_within_eighth 100 30 30);
    [lia | reflexivity | split; discriminate].
Defined.

(** X6. The one-block maximum projection bounds the next-block fee: for a
    positive target and gas used up to twice the target,
    [getBaseFeeInNextBlock] stays strictly below
    [getMaxBaseFeeInFutureBlock] for one block. *)
Theorem getBaseFeeInNextBlock_below_projection (f g L : Z) :
  0 <= f -> 0 < Z.quot L 2 -> 0 <= g <= 2 * Z.quot L 2 ->
  exists v m,
    getBaseFeeInNextBlock f g L = Ok v
    /\ getMaxBaseFeeInFutureBlock f 1 = Ok m
    /\ v < m.
Proof.
  intros Hf Ht Hg. rewrite getBaseFeeInNextBlock_next_fee by lia.
  rewrite getMaxBaseFeeInFutureBlock_iter.
  eexists _, _. split; [reflexivity|]. split; [reflexivity|].
  change (Nat.iter (Z.to_nat 1) loop_step f) with (loop_step f).
  rewrite loop_step_projection_step by assumption.
  pose proof (next_fee_within_eighth f g (Z.quot L 2) Hf Ht Hg).
  unfold projection_step.
  pose proof (Z.div_mod (f * 1125) 1000).
  pose proof (Z.mod_pos_bound (f * 1125) 1000).
  pose proof (Z.div_mod f 8). pose proof (Z.mod_pos_bound f 8). lia.
Qed.

Lemma getBaseFeeInNextBlock_below_projection_witness :
  exists v m,
    getBaseFeeInNextBlock 100 30 30 = Ok v
    /\ getMaxBaseFeeInFutureBlock 100 1 = Ok m
    /\ v < m.
Proof.
  apply (getBaseFeeInNextBlock_below_projection 100 30 30);
    [lia | reflexivity | split; discriminate].
Defined.

(** X7. For a fixed gas usage and a gas limit of at least 2, a higher
    current base fee never gives a lower next-block fee. *)
Theorem getBaseFeeInNextBlock_monotone_fee (f f' g L : Z) :
  0 <= f <= f' -> 0 < Z.quot L 2 -> 0 <= g ->
  exists v v',
    getBaseFeeInNextBlock f g L = Ok v
    /\ getBaseFeeInNextBlock f' g L = Ok v'
    /\ v <= v'.
Proof.
  intros Hf Ht Hg. rewrite !getBaseFeeInNextBlock_next_fee by lia.
  eexists _, _. split; [reflexivity|]. split; [reflexivity|].
  now apply next_fee_mono_fee.
Qed.

Lemma getBaseFeeInNextBlock_monotone_fee_witness :
  exists v v',
    getBaseFeeInNextBlock 100 5 30 = Ok v
    /\ getBaseFeeInNextBlock 101 5 30 = Ok v'
    /\ v <= v'.
Proof.
  apply (getBaseFeeInNextBlock_monotone_fee 100 101 5 30);
    [lia | reflexivity | lia].
Defined.

(** * Further properties of the bundle pricing *)

Lemma from_num_unsafe (n : Z) :
  ~ (- MAX_SAFE < n < MAX_SAFE) -> from (Num n) = Err NumericOverflow.
Proof.
  intros Hn. unfold from.
  destruct (Z.geb_spec n MAX_SAFE); [reflexivity|].
  destruct (Z.leb_spec n (- MAX_SAFE)); [reflexivity | lia].
Qed.

Lemma pricing_step_unsafe (baseFee : Z) (acc : Acc.t) (r : Tx.t) :
  ~ safe_gas r -> pricing_step baseFee acc r = Err NumericOverflow.
Proof.
  intros Hr. unfold pricing_step.
  change (from (Big (Tx.gas_price r))) with (Ok (Tx.gas_price r)).
  rewrite bind_ok, sub_big, bind_ok.
  unfold mul. rewrite from_num_unsafe by exact Hr.
  destruct (Tx.coinbase_transfer r); reflexivity.
Qed.

Lemma sum_over_app (w : Tx.t -> Z) (l1 l2 : list Tx.t) :
  sum_over w (l1 ++ l2) = sum_over w l1 + sum_over w l2.
Proof.
  induction l1 as [|r l1 IH]; [reflexivity|].
  cbn [app]. rewrite !sum_over_cons, IH. lia.
Qed.

Lemma sum_over_perm (w : Tx.t -> Z) (l1 l2 : list Tx.t) :
  l1 ≡ₚ l2 -> sum_over w l1 = sum_over w l2.
Proof.
  induction 1 as [|r l1 l2 _ IH|r1 r2 l|l1 l2 l3 _ IH1 _ IH2].
  - reflexivity.
  - now rewrite !sum_over_cons, IH.
  - rewrite !sum_over_cons. lia.
  - now rewrite IH1.
Qed.

Lemma gas_magnitude_nonneg_gas (l : list Tx.t) :
  Forall (fun r => 0 <= Tx.gas_used r) l -> gas_magnitude l = total_gas l.
Proof.
  unfold gas_magnitude, total_gas. induction 1 as [|r l Hr _ IH]; [reflexivity|].
  rewrite !sum_over_cons, IH. lia.
Qed.

Lemma total_priority_fees_split (baseFee : Z) (l : list Tx.t) :
  total_priority_fees baseFee l = total_fees l - baseFee * total_gas l.
Proof.
  unfold total_priority_fees, total_fees, total_gas.
  induction l as [|r l IH]; [cbn; lia|].
  rewrite !sum_over_cons, IH. lia.
Qed.

(** The [reduce] either meets an unsafe gas figure and throws, or adds the
    reference totals. *)
Lemma reduce_pricing_cases (baseFee : Z) (l : list Tx.t) :
  forall acc,
    (Forall safe_gas l
     /\ reduce (pricing_step baseFee) l acc =
          Ok (Acc.mk
                (Acc.gasUsed acc + total_gas l)
                (Acc.gasFeesPaidBySearcher acc + total_fees l)
                (Acc.priorityFeesReceivedByMiner acc
                 + total_priority_fees baseFee l)
                (Acc.coinbase_transfer acc + total_coinbase l)))
    \/ (~ Forall safe_gas l
        /\ reduce (pricing_step baseFee) l acc = Err NumericOverflow).
Proof.
  induction l as [|r l IH]; intros acc.
  - left. split; [constructor|]. destruct acc. cbn [reduce].
    unfold total_gas, total_fees, total_priority_fees, total_coinbase.
    cbn [sum_over foldr Acc.gasUsed Acc.gasFeesPaidBySearcher
         Acc.priorityFeesReceivedByMiner Acc.coinbase_transfer].
    now rewrite !Z.add_0_r.
  - cbn [reduce].
    destruct (decide (- MAX_SAFE < Tx.gas_used r < MAX_SAFE)) as [Hr|Hr].
    + rewrite pricing_step_safe by exact Hr. rewrite bind_ok.
      destruct (IH (Acc.mk
                      (Acc.gasUsed acc + Tx.gas_used r)
                      (Acc.gasFeesPaidBySearcher acc
                       + Tx.gas_price r * Tx.gas_used r)
                      (Acc.priorityFeesReceivedByMiner acc
                       + (Tx.gas_price r - baseFee) * Tx.gas_used r)
                      (Acc.coinbase_transfer acc
                       + default 0 (Tx.coinbase_transfer r))))
        as [[Hall Hok] | [Hnot Herr]].
      * left. split; [now constructor|]. rewrite Hok.
        unfold total_gas, total_fees, total_priority_fees, total_coinbase.
        rewrite !sum_over_cons.
        cbn [Acc.gasUsed Acc.gasFeesPaidBySearcher
             Acc.priorityFeesReceivedByMiner Acc.coinbase_transfer].
        now rewrite !Z.add_assoc.
      * right. split; [|exact Herr].
        intros Hall. apply Hnot. now inversion Hall.
    + right. split.
      * intros Hall. apply Hr. now inversion Hall.
      * now rewrite pricing_step_unsafe.
Qed.

(** X8. On a bundle of non-negative gas figures the aggregation returns
    exactly when the total gas is below [2^53 - 1], and throws the overflow
    fault otherwise. *)
Theorem calculateBundlePricing_overflow_threshold
    (txs : list Tx.t) (baseFee : Z) :
  Forall (fun r => 0 <= Tx.gas_used r) txs ->
  (total_gas txs < MAX_SAFE ->
   calculateBundlePricing txs baseFee = Ok (reference_pricing txs baseFee))
  /\ (MAX_SAFE <= total_gas txs ->
      calculateBundlePricing txs baseFee = Err NumericOverflow).
Proof.
  intros Hpos. split.
  - intros Hlt. apply calculateBundlePricing_reference.
    now rewrite gas_magnitude_nonneg_gas.
  - intros Hge. unfold calculateBundlePricing.
    change pricing_init with (Ok (Acc.mk 0 0 0 0)). rewrite bind_ok.
    destruct (reduce_pricing_cases baseFee txs (Acc.mk 0 0 0 0))
      as [[_ Hok] | [_ Herr]]; [|now rewrite Herr].
    rewrite Hok, bind_ok.
    cbn [Acc.gasUsed Acc.gasFeesPaidBySearcher
         Acc.priorityFeesReceivedByMiner Acc.coinbase_transfer].
    rewrite !Z.add_0_l, Z.gtb_ltb.
    destruct (Z.ltb_spec 0 (total_gas txs)); [|unfold MAX_SAFE in *; lia].
    rewrite add_big, bind_ok. unfold div.
    now rewrite from_num_unsafe by lia.
Qed.

Lemma calculateBundlePricing_overflow_threshold_witness :
  (total_gas [record 9007199254740000 1 None; record 991 1 None] < MAX_SAFE ->
   calculateBundlePricing
     [record 9007199254740000 1 None; record 991 1 None] 0
   = Ok (reference_pricing
           [record 9007199254740000 1 None; record 991 1 None] 0))
  /\ (MAX_SAFE <= total_gas [record 9007199254740000 1 None; record 991 1 None] ->
      calculateBundlePricing
        [record 9007199254740000 1 None; record 991 1 None] 0
      = Err NumericOverflow).
Proof.
  apply (calculateBundlePricing_overflow_threshold
           [record 9007199254740000 1 None; record 991 1 None] 0).
  repeat constructor; discriminate.
Defined.

(** X9. The aggregation does not depend on the order of the records: two
    bundles that are permutations of each other (gas within the safe
    integers) get the same pricing. *)
Theorem calculateBundlePricing_permutation
    (txs txs' : list Tx.t) (baseFee : Z) :
  txs ≡ₚ txs' -> gas_magnitude txs < MAX_SAFE ->
  calculateBundlePricing txs baseFee = calculateBundlePricing txs' baseFee.
Proof.
  intros Hperm Hm.
  assert (Hm' : gas_magnitude txs' < MAX_SAFE).
  { unfold gas_magnitude in *. now rewrite <- (sum_over_perm _ _ _ Hperm). }
  rewrite !calculateBundlePricing_reference by assumption.
  unfold reference_pricing, total_gas, total_fees, total_priority_fees,
    total_coinbase.
  rewrite !(sum_over_perm _ _ _ Hperm).
  now rewrite (Permutation_length Hperm).
Qed.

Lemma calculateBundlePricing_permutation_witness :
  calculateBundlePricing [record 21000 30 (Some 4); record 50000 12 None] 20
  = calculateBundlePricing [record 50000 12 None; record 21000 30 (Some 4)] 20.
Proof.
  apply (calculateBundlePricing_permutation
           [record 21000 30 (Some 4); record 50000 12 None]
           [record 50000 12 None; record 21000 30 (Some 4)] 20);
    [apply perm_swap | reflexivity].
Defined.

(** X10. Pricing a concatenation adds up: the gas, fee, priority-fee and
    coinbase totals and the transaction count of [a ++ b] are the sums of
    those of [a] and of [b]. *)
Theorem calculateBundlePricing_app (a b : list Tx.t) (baseFee : Z) :
  gas_magnitude (a ++ b) < MAX_SAFE ->
  exists ra rb rab,
    calculateBundlePricing a baseFee = Ok ra
    /\ calculateBundlePricing b baseFee = Ok rb
    /\ calculateBundlePricing (a ++ b) baseFee = Ok rab
    /\ Pricing.gasUsed rab = Pricing.gasUsed ra + Pricing.gasUsed rb
    /\ Pricing.gasFeesPaidBySearcher rab
       = Pricing.gasFeesPaidBySearcher ra + Pricing.gasFeesPaidBySearcher rb
    /\ Pricing.priorityFeesReceivedByMiner rab
       = Pricing.priorityFeesReceivedByMiner ra
         + Pricing.priorityFeesReceivedByMiner rb
    /\ Pricing.coinbase_transfer rab
       = Pricing.coinbase_transfer ra + Pricing.coinbase_transfer rb
    /\ Pricing.txCount rab = Pricing.txCount ra + Pricing.txCount rb.
Proof.
  intros Hm. pose proof (sum_over_abs_nonneg a). pose proof (sum_over_abs_nonneg b).
  unfold gas_magnitude in *. rewrite sum_over_app in Hm.
  exists (reference_pricing a baseFee), (reference_pricing b baseFee),
         (reference_pricing (a ++ b) baseFee).
  rewrite !calculateBundlePricing_reference
    by (unfold gas_magnitude; rewrite ?sum_over_app; lia).
  split; [reflexivity|]. split; [reflexivity|]. split; [reflexivity|].
  unfold reference_pricing, total_gas, total_fees, total_priority_fees,
    total_coinbase.
  cbn [Pricing.gasUsed Pricing.gasFeesPaidBySearcher
       Pricing.priorityFeesReceivedByMiner Pricing.coinbase_transfer
       Pricing.txCount].
  rewrite !sum_over_app, length_app. repeat split; lia.
Qed.

Lemma calculateBundlePricing_app_witness :
  exists ra rb rab,
    calculateBundlePricing [record 21000 30 (Some 4)] 20 = Ok ra
    /\ calculateBundlePricing [record 50000 12 None] 20 = Ok rb
    /\ calculateBundlePricing
         ([record 21000 30 (Some 4)] ++ [record 50000 12 None]) 20 = Ok rab
    /\ Pricing.gasUsed rab = Pricing.gasUsed ra + Pricing.gasUsed rb
    /\ Pricing.gasFeesPaidBySearcher rab
       = Pricing.gasFeesPaidBySearcher ra + Pricing.gasFeesPaidBySearcher rb
    /\ Pricing.priorityFeesReceivedByMiner rab
       = Pricing.priorityFeesReceivedByMiner ra
         + Pricing.priorityFeesReceivedByMiner rb
    /\ Pricing.coinbase_transfer rab
       = Pricing.coinbase_transfer ra + Pricing.coinbase_transfer rb
    /\ Pricing.txCount rab = Pricing.txCount ra + Pricing.txCount rb.
Proof.
  apply (calculateBundlePricing_app
           [record 21000 30 (Some 4)] [record 50000 12 None] 20).
  reflexivity.
Defined.

(** X11. The priority fees are the gas fees less the base fee on every unit
    of gas: [priorityFeesReceivedByMiner = gasFeesPaidBySearcher
    - baseFee * gasUsed]; the gas, fee and coinbase totals themselves do not
    depend on the base fee. *)
Theorem calculateBundlePricing_base_fee_share
    (txs : list Tx.t) (baseFee baseFee' : Z) :
  gas_magnitude txs < MAX_SAFE ->
  exists r r',
    calculateBundlePricing txs baseFee = Ok r
    /\ calculateBundlePricing txs baseFee' = Ok r'
    /\ Pricing.priorityFeesReceivedByMiner r
       = Pricing.gasFeesPaidBySearcher r - baseFee * Pricing.gasUsed r
    /\ Pricing.gasUsed r' = Pricing.gasUsed r
    /\ Pricing.gasFeesPaidBySearcher r' = Pricing.gasFeesPaidBySearcher r
    /\ Pricing.coinbase_transfer r' = Pricing.coinbase_transfer r
    /\ Pricing.effectiveGasPriceToSearcher r'
       = Pricing.effectiveGasPriceToSearcher r.
Proof.
  intros Hm.
  exists (reference_pricing txs baseFee), (reference_pricing txs baseFee').
  rewrite !calculateBundlePricing_reference by assumption.
  split; [reflexivity|]. split; [reflexivity|].
  split; [apply total_priority_fees_split|]. repeat split.
Qed.

Lemma calculateBundlePricing_base_fee_share_witness :
  exists r r',
    calculateBundlePricing [record 21000 30 (Some 4); record 50000 12 None] 20
      = Ok r
    /\ calculateBundlePricing [record 21000 30 (Some 4); record 50000 12 None] 7
      = Ok r'
    /\ Pricing.priorityFeesReceivedByMiner r
       = Pricing.gasFeesPaidBySearcher r - 20 * Pricing.gasUsed r
    /\ Pricing.gasUsed r' = Pricing.gasUsed r
    /\ Pricing.gasFeesPaidBySearcher r' = Pricing.gasFeesPaidBySearcher r
    /\ Pricing.coinbase_transfer r' = Pricing.coinbase_transfer r
    /\ Pricing.effectiveGasPriceToSearcher r'
       = Pricing.effectiveGasPriceToSearcher r.
Proof.
  apply (calculateBundlePricing_base_fee_share
           [record 21000 30 (Some 4); record 50000 12 None] 20 7).
  reflexivity.
Defined.

(** X12. When the bundle used gas and the searcher's payments are not
    negative, the effective gas price is the average payment per unit of gas
    rounded down: [price * gasUsed <= coinbase + fees < (price + 1) * gasUsed]. *)
Theorem calculateBundlePricing_effective_price_floor
    (txs : list Tx.t) (baseFee : Z) :
  gas_magnitude txs < MAX_SAFE ->
  0 < total_gas txs -> 0 <= total_coinbase txs + total_fees txs ->
  exists r,
    calculateBundlePricing txs baseFee = Ok r
    /\ Pricing.effectiveGasPriceToSearcher r * Pricing.gasUsed r
       <= Pricing.coinbase_transfer r + Pricing.gasFeesPaidBySearcher r
    /\ Pricing.coinbase_transfer r + Pricing.gasFeesPaidBySearcher r
       < (Pricing.effectiveGasPriceToSearcher r + 1) * Pricing.gasUsed r.
Proof.
  intros Hm Hgas Hpaid. exists (reference_pricing txs baseFee).
  split; [now apply calculateBundlePricing_reference|].
  unfold reference_pricing.
  cbn [Pricing.gasUsed Pricing.gasFeesPaidBySearcher
       Pricing.coinbase_transfer Pricing.effectiveGasPriceToSearcher].
  unfold effective_price. rewrite Z.gtb_ltb.
  destruct (Z.ltb_spec 0 (total_gas txs)); [|lia].
  pose proof (Z.mul_quot_le (total_coinbase txs + total_fees txs)
                (total_gas txs)).
  pose proof (Z.mul_succ_quot_gt (total_coinbase txs + total_fees txs)
                (total_gas txs)).
  lia.
Qed.

Lemma calculateBundlePricing_effective_price_floor_witness :
  exists r,
    calculateBundlePricing [record 21000 30 (Some 4); record 50000 12 None] 20
      = Ok r
    /\ Pricing.effectiveGasPriceToSearcher r * Pricing.gasUsed r
       <= Pricing.coinbase_transfer r + Pricing.gasFeesPaidBySearcher r
    /\ Pricing.coinbase_transfer r + Pricing.gasFeesPaidBySearcher r
       < (Pricing.effectiveGasPriceToSearcher r + 1) * Pricing.gasUsed r.
Proof.
  apply (calculateBundlePricing_effective_price_floor
           [record 21000 30 (Some 4); record 50000 12 None] 20);
    [reflexivity | reflexivity | discriminate].
Defined.

(** X13. With a non-negative base fee the miner's effective priority fee
    never exceeds the searcher's effective gas price. *)
Theorem calculateBundlePricing_priority_le_price
    (txs : list Tx.t) (baseFee : Z) :
  gas_magnitude txs < MAX_SAFE -> 0 <= baseFee ->
  exists r,
    calculateBundlePricing txs baseFee = Ok r
    /\ Pricing.effectivePriorityFeeToMiner r
       <= Pricing.effectiveGasPriceToSearcher r.
Proof.
  intros Hm Hb. exists (reference_pricing txs baseFee).
  split; [now apply calculateBundlePricing_reference|].
  unfold reference_pricing.
  cbn [Pricing.effectivePriorityFeeToMiner Pricing.effectiveGasPriceToSearcher].
  unfold effective_price. rewrite Z.gtb_ltb.
  destruct (Z.ltb_spec 0 (total_gas txs)); [|lia].
  apply Z.quot_le_mono; [assumption|].
  rewrite total_priority_fees_split. nia.
Qed.

Lemma calculateBundlePricing_priority_le_price_witness :
  exists r,
    calculateBundlePricing [record 21000 30 (Some 4); record 50000 12 None] 20
      = Ok r
    /\ Pricing.effectivePriorityFeeToMiner r
       <= Pricing.effectiveGasPriceToSearcher r.
Proof.
  apply (calculateBundlePricing_priority_le_price
           [record 21000 30 (Some 4); record 50000 12 None] 20);
    [reflexivity | discriminate].
Defined.

Lemma pricing_step_with_coinbase (baseFee : Z) (acc : Acc.t) (r : Tx.t) :
  pricing_step baseFee acc (with_coinbase r) = pricing_step baseFee acc r.
Proof.
  unfold pricing_step, with_coinbase.
  cbn [Tx.gas_used Tx.gas_price Tx.coinbase_transfer].
  destruct (Tx.coinbase_transfer r); reflexivity.
Qed.

Lemma reduce_with_coinbase (baseFee : Z) (l : list Tx.t) :
  forall acc,
    reduce (pricing_step baseFee) (with_coinbase <$> l) acc
    = reduce (pricing_step baseFee) l acc.
Proof.
  induction l as [|r l IH]; intros acc; [reflexivity|].
  rewrite fmap_cons. cbn [reduce]. rewrite pricing_step_with_coinbase.
  destruct (pricing_step baseFee acc r) as [acc'|e]; [|reflexivity].
  rewrite !bind_ok. apply IH.
Qed.

(** X14. A record without a [coinbase_transfer] key is priced exactly as the
    same record with a coinbase transfer of 0, whatever else the bundle
    holds and whether or not the aggregation throws. *)
Theorem calculateBundlePricing_missing_coinbase
    (txs : list Tx.t) (baseFee : Z) :
  calculateBundlePricing (with_coinbase <$> txs) baseFee
  = calculateBundlePricing txs baseFee.
Proof.
  unfold calculateBundlePricing.
  change pricing_init with (Ok (Acc.mk 0 0 0 0)). rewrite !bind_ok.
  now rewrite reduce_with_coinbase, length_fmap.
Qed.

(** * Further properties of the relay requests *)

(** X15. A rejection of [getAddress] or of [signMessage] is the outcome of
    [request], and nothing is handed to [fetchJson].  Whenever [request]
    reaches [fetchJson], both calls had answered, the body is passed on
    unchanged, and the header sent under [X-Flashbots-Signature] is the
    connection's own value for that key when it has one and otherwise
    [<address>:<signature>] from the two answers. *)
Theorem request_signer_outcome (utils_id : string -> string)
    (this : GasProvider.t) (body : string) :
  (forall e, getAddress (authSigner this) = Err e ->
             request utils_id this body = Err e)
  /\ (forall address e,
        getAddress (authSigner this) = Ok address ->
        signMessage (authSigner this) (utils_id body) = Err e ->
        request utils_id this body = Err e)
  /\ (forall sent sent_body,
        request utils_id this body = Ok (sent, sent_body) ->
        sent_body = body
        /\ exists address signature hs,
             getAddress (authSigner this) = Ok address
             /\ signMessage (authSigner this) (utils_id body) = Ok signature
             /\ ConnectionInfo.headers sent = Some hs
             /\ hs !! SIGNATURE_HEADER =
                  Some (default (address +:+ ":" +:+ signature)
                          (headers_of (connectionInfo this)
                             !! SIGNATURE_HEADER))).
Proof.
  unfold request. split; [|split].
  - intros e ->. reflexivity.
  - intros address e -> ->. reflexivity.
  - intros sent sent_body.
    destruct (getAddress (authSigner this)) as [address|]; [|discriminate].
    destruct (signMessage (authSigner this) (utils_id body)) as [signature|];
      [|discriminate].
    rewrite !bind_ok. intros [= <- <-].
    split; [reflexivity|]. exists address, signature. eexists.
    split; [reflexivity|]. split; [reflexivity|]. split; [reflexivity|].
    rewrite spread_headers_lookup.
    destruct (headers_of (connectionInfo this) !! SIGNATURE_HEADER);
      [reflexivity|]. apply lookup_singleton_eq.
Qed.

Lemma spread_headers_dom (target : gmap string string) (c : ConnectionInfo.t) :
  dom (spread target (ConnectionInfo.headers c))
  = dom target ∪ dom (headers_of c).
Proof.
  apply set_eq. intros k.
  rewrite elem_of_union, !elem_of_dom, spread_headers_lookup.
  destruct (headers_of c !! k) as [v|].
  - split; [right|]; eauto.
  - split; [now left | intros [H | [v Hv]]; [exact H | discriminate]].
Qed.

(** X16. Every request that goes out carries an [X-Flashbots-Signature]
    header: the sent header names are exactly that key together with the
    connection's own header names, and the URL, user, password and timeout
    of the connection are passed on unchanged. *)
Theorem request_header_names (utils_id : string -> string)
    (this : GasProvider.t) (body : string)
    (sent : ConnectionInfo.t) (sent_body : string) :
  request utils_id this body = Ok (sent, sent_body) ->
  exists hs,
    ConnectionInfo.headers sent = Some hs
    /\ dom hs = {[ SIGNATURE_HEADER ]} ∪ dom (headers_of (connectionInfo this))
    /\ is_Some (hs !! SIGNATURE_HEADER)
    /\ ConnectionInfo.url sent = ConnectionInfo.url (connectionInfo this)
    /\ ConnectionInfo.user sent = ConnectionInfo.user (connectionInfo this)
    /\ ConnectionInfo.password sent
       = ConnectionInfo.password (connectionInfo this)
    /\ ConnectionInfo.timeout sent
       = ConnectionInfo.timeout (connectionInfo this).
Proof.
  unfold request.
  destruct (getAddress (authSigner this)) as [address|]; [|discriminate].
  destruct (signMessage (authSigner this) (utils_id body)) as [signature|];
    [|discriminate].
  rewrite !bind_ok. intros [= <- <-].
  eexists. split; [reflexivity|].
  assert (Hdom : dom (spread {[SIGNATURE_HEADER := address +:+ ":" +:+ signature]}
                        (ConnectionInfo.headers (connectionInfo this)))
                 = {[ SIGNATURE_HEADER ]}
                   ∪ dom (headers_of (connectionInfo this))).
  { now rewrite spread_headers_dom, dom_singleton_L. }
  split; [exact Hdom|]. split; [|repeat split].
  apply elem_of_dom. rewrite Hdom.
  apply elem_of_union_l. now apply elem_of_singleton.
Qed.

Lemma request_header_names_witness :
  exists hs,
    ConnectionInfo.headers
      (ConnectionInfo.set_headers (connectionInfo plain_client)
         {[ SIGNATURE_HEADER := "0xA11CE:signed:{}" ]}) = Some hs
    /\ dom hs
       = {[ SIGNATURE_HEADER ]} ∪ dom (headers_of (connectionInfo plain_client))
    /\ is_Some (hs !! SIGNATURE_HEADER)
    /\ ConnectionInfo.url
         (ConnectionInfo.set_headers (connectionInfo plain_client)
            {[ SIGNATURE_HEADER := "0xA11CE:signed:{}" ]})
       = ConnectionInfo.url (connectionInfo plain_client)
    /\ ConnectionInfo.user
         (ConnectionInfo.set_headers (connectionInfo plain_client)
            {[ SIGNATURE_HEADER := "0xA11CE:signed:{}" ]})
       = ConnectionInfo.user (connectionInfo plain_client)
    /\ ConnectionInfo.password
         (ConnectionInfo.set_headers (connectionInfo plain_client)
            {[ SIGNATURE_HEADER := "0xA11CE:signed:{}" ]})
       = ConnectionInfo.password (connectionInfo plain_client)
    /\ ConnectionInfo.timeout
         (ConnectionInfo.set_headers (connectionInfo plain_client)
            {[ SIGNATURE_HEADER := "0xA11CE:signed:{}" ]})
       = ConnectionInfo.timeout (connectionInfo plain_client).
Proof.
  apply (request_header_names (fun text => text) plain_client "{}"
           (ConnectionInfo.set_headers (connectionInfo plain_client)
              {[ SIGNATURE_HEADER := "0xA11CE:signed:{}" ]}) "{}").
  reflexivity.
Defined.

(** X17. Over any sequence of calls on one client, the envelopes come out
    in the order they were asked for, each with its own method and
    parameters and tagged [jsonrpc = "2.0"]; neither preparing nor sending
    changes the client's signer or connection. *)
Theorem run_envelopes (utils_id : string -> string) (calls : list call)
    (this : GasProvider.t) :
  (fun e => (Envelope.method e, Envelope.params e))
    <$> (run utils_id calls this).1 = prepared_calls calls
  /\ Forall (fun e => Envelope.jsonrpc e = "2.0") (run utils_id calls this).1
  /\ authSigner (run utils_id calls this).2 = authSigner this
  /\ connectionInfo (run utils_id calls this).2 = connectionInfo this.
Proof.
  revert this.
  induction calls as [|c calls IH]; intros this.
  - cbn. repeat split. constructor.
  - destruct c as [method params | body].
    + rewrite run_prepare. cbn [fst snd].
      destruct (IH (prepareRelayRequest this method params).2)
        as (Hfields & Hrpc & Hsigner & Hconn).
      split; [|split; [|split]].
      * rewrite fmap_cons, Hfields. reflexivity.
      * constructor; [reflexivity | exact Hrpc].
      * rewrite Hsigner. reflexivity.
      * rewrite Hconn. reflexivity.
    + rewrite run_send. apply IH.
Qed.

(** X18. For a block number that is a safe integer, [fetchBlocksApi] asks
    for [https://blocks.flashbots.net/v1/blocks?block_number=] followed by
    the number in plain decimal, and two such block numbers give the same
    URL only when they are equal. *)
Theorem fetchBlocksApi_url (number_toString : Z -> string)
    (blockNumber blockNumber' : Z) :
  (forall n, - MAX_SAFE <= n <= MAX_SAFE -> number_toString n = pretty n) ->
  - MAX_SAFE <= blockNumber <= MAX_SAFE ->
  - MAX_SAFE <= blockNumber' <= MAX_SAFE ->
  fetchBlocksApi number_toString blockNumber
  = "https://blocks.flashbots.net/v1/blocks?block_number="
    +:+ pretty blockNumber
  /\ (fetchBlocksApi number_toString blockNumber
      = fetchBlocksApi number_toString blockNumber'
      <-> blockNumber = blockNumber').
Proof.
  intros Hprint Hn Hn'. unfold fetchBlocksApi.
  rewrite !Hprint by assumption.
  split; [reflexivity|]. split; [|now intros ->].
  intros H. apply (inj (String.app _)) in H. now apply (inj pretty) in H.
Qed.

Lemma fetchBlocksApi_url_witness :
  fetchBlocksApi pretty 12965000
  = "https://blocks.flashbots.net/v1/blocks?block_number=" +:+ pretty 12965000
  /\ (fetchBlocksApi pretty 12965000 = fetchBlocksApi pretty 12965001
      <-> 12965000 = 12965001).
Proof.
  apply (fetchBlocksApi_url pretty 12965000 12965001);
    [intros; reflexivity | split; discriminate | split; discriminate].
Defined.

(** The URL of the London fork block. *)
Example fetchBlocksApi_london :
  fetchBlocksApi pretty 12965000
  = "https://blocks.flashbots.net/v1/blocks?block_number=12965000".
Proof. vm_compute. reflexivity. Qed.
